(** * SQLite bindings for the Phasor VM: the handle tables and the bridge

    A shallow embedding of [src/sqlite-phs.cpp] and of the value helpers of
    [src/phasor/PhasorFFI.hpp].  The three process-wide tables become fields
    of a [State] record that every bridge function takes and returns; the
    database engine behind [sqlite/sqlite3.h] is an [Engine], a record of
    functions over an engine-private [World].  Every call into the engine is
    appended to [native_calls], so that "no native call happened" is a
    statement about that list.  The three mutexes guard single-threaded
    critical sections and leave no trace in a sequential model. *)

From Stdlib Require Import ZArith String List Lia.
From stdpp Require Import base option list list_numbers sorting gmap.

Open Scope Z_scope.

(** ** C integers *)

Definition INT_MAX : Z := 2147483647.
Definition INT_MIN : Z := -2147483648.

(** The conversion [(int)x] of a 64-bit value: the low 32 bits, read as a
    two's-complement number.  The post-increment of an [int] counter is
    modelled with the same wrap-around, which is what it does on the
    two's-complement targets the plugin is built for: after [INT_MAX] comes
    [INT_MIN]. *)
Definition to_int (z : Z) : Z := (z + 2147483648) mod 4294967296 - 2147483648.

(** The value a 64-bit register holds after an addition. *)
Definition to_int64 (z : Z) : Z :=
  (z + 9223372036854775808) mod 18446744073709551616 - 9223372036854775808.

Definition is_int (z : Z) : Prop := INT_MIN <= z <= INT_MAX.

Arguments to_int : simpl never.
Arguments to_int64 : simpl never.

(** Pointers are addresses; [nullptr] is address 0.  A [const char*] is
    modelled by the characters it points to, [None] being the null pointer.
    A [double] is carried as its 64-bit pattern and never inspected. *)
Abbreviation ptr := Z (only parsing).
Abbreviation cstr := (option string) (only parsing).
Abbreviation double := Z (only parsing).
Definition nullptr : ptr := 0.

(** ** PhasorFFI.hpp: tagged values *)

Inductive PhasorValueType :=
| PHASOR_TYPE_NULL
| PHASOR_TYPE_BOOL
| PHASOR_TYPE_INT
| PHASOR_TYPE_FLOAT
| PHASOR_TYPE_STRING
| PHASOR_TYPE_ARRAY.

Definition type_eqb (a b : PhasorValueType) : bool :=
  match a, b with
  | PHASOR_TYPE_NULL, PHASOR_TYPE_NULL | PHASOR_TYPE_BOOL, PHASOR_TYPE_BOOL
  | PHASOR_TYPE_INT, PHASOR_TYPE_INT | PHASOR_TYPE_FLOAT, PHASOR_TYPE_FLOAT
  | PHASOR_TYPE_STRING, PHASOR_TYPE_STRING
  | PHASOR_TYPE_ARRAY, PHASOR_TYPE_ARRAY => true
  | _, _ => false
  end.

(** The tagged union: one constructor per tag, carrying the member of the
    union that the tag selects. *)
#[local] Set Warnings "-register-all".
Inductive PhasorValue :=
| VNull
| VBool (b : bool)
| VInt (i : Z)
| VFloat (f : double)
| VString (s : cstr)
| VArray (elements : list PhasorValue).
#[local] Set Warnings "register-all".

Definition type (val : PhasorValue) : PhasorValueType :=
  match val with
  | VNull => PHASOR_TYPE_NULL
  | VBool _ => PHASOR_TYPE_BOOL
  | VInt _ => PHASOR_TYPE_INT
  | VFloat _ => PHASOR_TYPE_FLOAT
  | VString _ => PHASOR_TYPE_STRING
  | VArray _ => PHASOR_TYPE_ARRAY
  end.

Definition phasor_make_null : PhasorValue := VNull.
Definition phasor_make_bool (b : bool) : PhasorValue := VBool b.
Definition phasor_make_int (i : Z) : PhasorValue := VInt i.
Definition phasor_make_float (f : double) : PhasorValue := VFloat f.
Definition phasor_make_string (s : cstr) : PhasorValue := VString s.

Definition phasor_is_int (val : PhasorValue) : bool :=
  type_eqb (type val) PHASOR_TYPE_INT.
Definition phasor_is_string (val : PhasorValue) : bool :=
  type_eqb (type val) PHASOR_TYPE_STRING.

(** The accessors read a union member without checking the tag; the bridge
    calls them only behind the matching [phasor_is_*] test, so the value
    chosen here for the other tags is never observed. *)
Definition phasor_to_int (val : PhasorValue) : Z :=
  match val with VInt i => i | _ => 0 end.
Definition phasor_to_string (val : PhasorValue) : cstr :=
  match val with VString s => s | _ => None end.

(** [argc]/[argv]: the argument array is a list, [argc] its length. *)
Definition argc (argv : list PhasorValue) : Z := Z.of_nat (length argv).
Definition arg (argv : list PhasorValue) (i : nat) : PhasorValue :=
  nth i argv VNull.

(** ** sqlite3.h: the engine *)

(** Modelled from the spec: the result codes and column type codes of
    [sqlite/sqlite3.h], which is not among the sources.  Section 6 of the
    spec distinguishes "ok", "row available" and "no more rows"; section 4.2
    the integer, float, text and null column types.  The numbers are those of
    the SQLite public header. *)
Definition SQLITE_OK : Z := 0.
Definition SQLITE_ROW : Z := 100.
Definition SQLITE_DONE : Z := 101.
Definition SQLITE_INTEGER : Z := 1.
Definition SQLITE_FLOAT : Z := 2.
Definition SQLITE_TEXT : Z := 3.
Definition SQLITE_NULL : Z := 5.

(** Modelled from the spec: the engine functions the bridge consumes
    (section 6, "Native database engine API consumed"), as functions over the
    engine's own state.  [eng_column_int64] is the 64-bit value the engine
    holds for an integer column. *)
Record Engine := {
  World : Type;
  eng_open : cstr -> World -> Z * ptr * World;
  eng_close : ptr -> World -> Z * World;
  eng_exec : ptr -> cstr -> World -> Z * cstr * World;
  eng_free : cstr -> World -> World;
  eng_prepare_v2 : ptr -> cstr -> World -> Z * ptr * World;
  eng_step : ptr -> World -> Z * World;
  eng_column_count : ptr -> World -> Z;
  eng_column_type : ptr -> Z -> World -> Z;
  eng_column_int64 : ptr -> Z -> World -> Z;
  eng_column_double : ptr -> Z -> World -> double;
  eng_column_text : ptr -> Z -> World -> string;
  eng_finalize : ptr -> World -> Z * World
}.

(** One entry per call into the engine. *)
Inductive NativeCall :=
| CallOpen (filename : cstr)
| CallClose (db : ptr)
| CallExec (db : ptr) (sql : cstr)
| CallFree (err : cstr)
| CallPrepare (db : ptr) (sql : cstr)
| CallStep (stmt : ptr)
| CallColumnCount (stmt : ptr)
| CallColumnType (stmt : ptr) (i : Z)
| CallColumnInt (stmt : ptr) (i : Z)
| CallColumnDouble (stmt : ptr) (i : Z)
| CallColumnText (stmt : ptr) (i : Z)
| CallFinalize (stmt : ptr).

(** Calls that read a column value of the current row. *)
Definition reads_column (c : NativeCall) : bool :=
  match c with
  | CallColumnType _ _ | CallColumnInt _ _
  | CallColumnDouble _ _ | CallColumnText _ _ => true
  | _ => false
  end.

(** ** sqlite-phs.cpp *)

Section Bridge.

Context {E : Engine}.

Record State := mkState {
  db_table : gmap Z Z;
  stmt_table : gmap Z Z;
  string_table : gmap Z string;
  next_db_handle : Z;
  next_stmt_handle : Z;
  next_string_handle : Z;
  world : World E;
  native_calls : list NativeCall
}.

(** The state right after the plugin is loaded. *)
Definition init (w : World E) : State := mkState ∅ ∅ ∅ 1 1 1 w [].

Definition set_db (t : gmap Z Z) (n : Z) (s : State) : State :=
  mkState t (stmt_table s) (string_table s) n (next_stmt_handle s)
          (next_string_handle s) (world s) (native_calls s).
Definition set_stmt (t : gmap Z Z) (n : Z) (s : State) : State :=
  mkState (db_table s) t (string_table s) (next_db_handle s) n
          (next_string_handle s) (world s) (native_calls s).
Definition set_string (t : gmap Z string) (n : Z) (s : State) : State :=
  mkState (db_table s) (stmt_table s) t (next_db_handle s)
          (next_stmt_handle s) n (world s) (native_calls s).

(** A call into the engine: the world moves on and the call is logged. *)
Definition native (c : NativeCall) (w : World E) (s : State) : State :=
  mkState (db_table s) (stmt_table s) (string_table s) (next_db_handle s)
          (next_stmt_handle s) (next_string_handle s) w (native_calls s ++ [c]).

Definition sqlite3_open (filename : cstr) (s : State) : Z * ptr * State :=
  let '(rc, db, w) := eng_open E filename (world s) in
  (rc, db, native (CallOpen filename) w s).
Definition sqlite3_close (db : ptr) (s : State) : Z * State :=
  let '(rc, w) := eng_close E db (world s) in (rc, native (CallClose db) w s).
Definition sqlite3_exec (db : ptr) (sql : cstr) (s : State) : Z * cstr * State :=
  let '(rc, err, w) := eng_exec E db sql (world s) in
  (rc, err, native (CallExec db sql) w s).
Definition sqlite3_free (err : cstr) (s : State) : State :=
  native (CallFree err) (eng_free E err (world s)) s.
Definition sqlite3_prepare_v2 (db : ptr) (sql : cstr) (s : State)
  : Z * ptr * State :=
  let '(rc, stmt, w) := eng_prepare_v2 E db sql (world s) in
  (rc, stmt, native (CallPrepare db sql) w s).
Definition sqlite3_step (stmt : ptr) (s : State) : Z * State :=
  let '(rc, w) := eng_step E stmt (world s) in (rc, native (CallStep stmt) w s).
Definition sqlite3_column_count (stmt : ptr) (s : State) : Z * State :=
  (eng_column_count E stmt (world s), native (CallColumnCount stmt) (world s) s).
Definition sqlite3_column_type (stmt : ptr) (i : Z) (s : State) : Z * State :=
  (eng_column_type E stmt i (world s), native (CallColumnType stmt i) (world s) s).
(** By the SQLite C API, [sqlite3_column_int] returns a C [int]: the 64-bit
    value of the column converted with [(int)]. *)
Definition sqlite3_column_int (stmt : ptr) (i : Z) (s : State) : Z * State :=
  (to_int (eng_column_int64 E stmt i (world s)),
   native (CallColumnInt stmt i) (world s) s).
Definition sqlite3_column_double (stmt : ptr) (i : Z) (s : State)
  : double * State :=
  (eng_column_double E stmt i (world s),
   native (CallColumnDouble stmt i) (world s) s).
Definition sqlite3_column_text (stmt : ptr) (i : Z) (s : State)
  : string * State :=
  (eng_column_text E stmt i (world s), native (CallColumnText stmt i) (world s) s).
Definition sqlite3_finalize (stmt : ptr) (s : State) : Z * State :=
  let '(rc, w) := eng_finalize E stmt (world s) in
  (rc, native (CallFinalize stmt) w s).

(** *** The registry helpers *)

Definition get_db (handle : Z) (s : State) : ptr :=
  default nullptr (db_table s !! handle).

Definition get_stmt (handle : Z) (s : State) : ptr :=
  default nullptr (stmt_table s !! handle).

Definition store_string (str : string) (s : State) : Z * State :=
  let handle := next_string_handle s in
  (handle, set_string (<[handle := str]> (string_table s)) (to_int (handle + 1)) s).

Definition get_string (handle : Z) (s : State) : cstr :=
  string_table s !! handle.

Definition free_string (handle : Z) (s : State) : State :=
  set_string (delete handle (string_table s)) (next_string_handle s) s.

(** *** The bridge operations *)

Definition sqlite_open (argv : list PhasorValue) (s : State)
  : PhasorValue * State :=
  if negb (argc argv =? 1) || negb (phasor_is_string (arg argv 0))
  then (phasor_make_null, s) else
  let filename := phasor_to_string (arg argv 0) in
  let '(rc, db, s1) := sqlite3_open filename s in
  if negb (rc =? SQLITE_OK)
  then let '(_, s2) := sqlite3_close db s1 in (phasor_make_null, s2) else
  let handle := next_db_handle s1 in
  (phasor_make_int handle,
   set_db (<[handle := db]> (db_table s1)) (to_int (handle + 1)) s1).

Definition sqlite_close (argv : list PhasorValue) (s : State)
  : PhasorValue * State :=
  if negb (argc argv =? 1) || negb (phasor_is_int (arg argv 0))
  then (phasor_make_bool false, s) else
  let handle := to_int (phasor_to_int (arg argv 0)) in
  let '(db, s1) :=
    match db_table s !! handle with
    | Some p => (p, set_db (delete handle (db_table s)) (next_db_handle s) s)
    | None => (nullptr, s)
    end in
  if negb (db =? nullptr)
  then let '(_, s2) := sqlite3_close db s1 in (phasor_make_bool true, s2)
  else (phasor_make_bool false, s1).

Definition sqlite_exec (argv : list PhasorValue) (s : State)
  : PhasorValue * State :=
  if negb (argc argv =? 2) || negb (phasor_is_int (arg argv 0))
     || negb (phasor_is_string (arg argv 1))
  then (phasor_make_bool false, s) else
  let handle := to_int (phasor_to_int (arg argv 0)) in
  let sql := phasor_to_string (arg argv 1) in
  let db := get_db handle s in
  if db =? nullptr then (phasor_make_bool false, s) else
  let '(rc, err, s1) := sqlite3_exec db sql s in
  if negb (rc =? SQLITE_OK)
  then (phasor_make_bool false,
        match err with Some _ => sqlite3_free err s1 | None => s1 end)
  else (phasor_make_bool true, s1).

Definition sqlite_prepare (argv : list PhasorValue) (s : State)
  : PhasorValue * State :=
  if negb (argc argv =? 2) || negb (phasor_is_int (arg argv 0))
     || negb (phasor_is_string (arg argv 1))
  then (phasor_make_null, s) else
  let db_handle := to_int (phasor_to_int (arg argv 0)) in
  let sql := phasor_to_string (arg argv 1) in
  let db := get_db db_handle s in
  if db =? nullptr then (phasor_make_null, s) else
  let '(rc, stmt, s1) := sqlite3_prepare_v2 db sql s in
  if negb (rc =? SQLITE_OK) then (phasor_make_null, s1) else
  let handle := next_stmt_handle s1 in
  (phasor_make_int handle,
   set_stmt (<[handle := stmt]> (stmt_table s1)) (to_int (handle + 1)) s1).

Definition sqlite_step (argv : list PhasorValue) (s : State)
  : PhasorValue * State :=
  if negb (argc argv =? 1) || negb (phasor_is_int (arg argv 0))
  then (phasor_make_null, s) else
  let handle := to_int (phasor_to_int (arg argv 0)) in
  let stmt := get_stmt handle s in
  if stmt =? nullptr then (phasor_make_null, s) else
  let '(rc, s1) := sqlite3_step stmt s in
  if rc =? SQLITE_ROW then (phasor_make_bool true, s1) else
  if rc =? SQLITE_DONE then (phasor_make_bool false, s1) else
  (phasor_make_null, s1).

Definition sqlite_column (argv : list PhasorValue) (s : State)
  : PhasorValue * State :=
  if negb (argc argv =? 2) || negb (phasor_is_int (arg argv 0))
     || negb (phasor_is_int (arg argv 1))
  then (phasor_make_null, s) else
  let stmt_handle := to_int (phasor_to_int (arg argv 0)) in
  let col_index := to_int (phasor_to_int (arg argv 1)) in
  let stmt := get_stmt stmt_handle s in
  if stmt =? nullptr then (phasor_make_null, s) else
  let '(count, s1) := sqlite3_column_count stmt s in
  if (col_index <? 0) || (col_index >=? count) then (phasor_make_null, s1) else
  let '(type, s2) := sqlite3_column_type stmt col_index s1 in
  if type =? SQLITE_INTEGER then
    let '(v, s3) := sqlite3_column_int stmt col_index s2 in
    (phasor_make_int v, s3)
  else if type =? SQLITE_FLOAT then
    let '(f, s3) := sqlite3_column_double stmt col_index s2 in
    (phasor_make_float f, s3)
  else if type =? SQLITE_TEXT then
    let '(str, s3) := sqlite3_column_text stmt col_index s2 in
    let '(str_handle, s4) := store_string str s3 in
    (phasor_make_string (get_string str_handle s4), s4)
  else if type =? SQLITE_NULL then (phasor_make_null, s2)
  else (phasor_make_null, s2).

Definition sqlite_finalize (argv : list PhasorValue) (s : State)
  : PhasorValue * State :=
  if negb (argc argv =? 1) || negb (phasor_is_int (arg argv 0))
  then (phasor_make_bool false, s) else
  let handle := to_int (phasor_to_int (arg argv 0)) in
  let '(stmt, s1) :=
    match stmt_table s !! handle with
    | Some p => (p, set_stmt (delete handle (stmt_table s)) (next_stmt_handle s) s)
    | None => (nullptr, s)
    end in
  if negb (stmt =? nullptr)
  then let '(_, s2) := sqlite3_finalize stmt s1 in (phasor_make_bool true, s2)
  else (phasor_make_bool false, s1).

Definition sqlite_free_string (argv : list PhasorValue) (s : State)
  : PhasorValue * State :=
  if negb (argc argv =? 1) || negb (phasor_is_int (arg argv 0))
  then (phasor_make_null, s) else
  let handle := to_int (phasor_to_int (arg argv 0)) in
  (phasor_make_null, free_string handle s).

End Bridge.

Arguments State : clear implicits.
Arguments init : clear implicits.

(** ** The registered surface *)

(** [phasor_plugin_entry] registers the eight functions under their names;
    the host then calls them with an argument array. *)
Inductive Op :=
| OpOpen | OpClose | OpExec | OpPrepare
| OpStep | OpColumn | OpFinalize | OpFreeString.

Definition Call : Type := Op * list PhasorValue.

Section Host.

Context {E : Engine}.

Definition bridge (op : Op) : list PhasorValue -> State E -> PhasorValue * State E :=
  match op with
  | OpOpen => sqlite_open
  | OpClose => sqlite_close
  | OpExec => sqlite_exec
  | OpPrepare => sqlite_prepare
  | OpStep => sqlite_step
  | OpColumn => sqlite_column
  | OpFinalize => sqlite_finalize
  | OpFreeString => sqlite_free_string
  end.

(** A script: the calls are made one after the other; the results are
    collected in order. *)
Fixpoint run (cs : list Call) (s : State E) : list PhasorValue * State E :=
  match cs with
  | [] => ([], s)
  | (op, argv) :: cs' =>
      let '(r, s1) := bridge op argv s in
      let '(rs, s2) := run cs' s1 in
      (r :: rs, s2)
  end.

(** The three handle spaces, with their counter and their live handles. *)
Inductive Space := Connection | Statement | StringEntry.

Definition counter (sp : Space) (s : State E) : Z :=
  match sp with
  | Connection => next_db_handle s
  | Statement => next_stmt_handle s
  | StringEntry => next_string_handle s
  end.

Definition live (sp : Space) (s : State E) : gset Z :=
  match sp with
  | Connection => dom (db_table s)
  | Statement => dom (stmt_table s)
  | StringEntry => dom (string_table s)
  end.

(** The handle a call allocates in a space, if it allocates one: the
    counter is read and incremented exactly when an entry is stored. *)
Definition allocated (sp : Space) (c : Call) (s : State E) : option Z :=
  let s' := snd (bridge (fst c) (snd c) s) in
  if counter sp s' =? counter sp s then None else Some (counter sp s).

(** The handles allocated in a space during a script, in order. *)
Fixpoint issued (sp : Space) (cs : list Call) (s : State E) : list Z :=
  match cs with
  | [] => []
  | c :: cs' =>
      option_list (allocated sp c s)
        ++ issued sp cs' (snd (bridge (fst c) (snd c) s))
  end.

(** The registry part of a state, and the engine part. *)
Definition same_registry (s s' : State E) : Prop :=
  db_table s' = db_table s /\ stmt_table s' = stmt_table s
  /\ string_table s' = string_table s
  /\ next_db_handle s' = next_db_handle s
  /\ next_stmt_handle s' = next_stmt_handle s
  /\ next_string_handle s' = next_string_handle s.

Definition no_native_call (s s' : State E) : Prop :=
  native_calls s' = native_calls s /\ world s' = world s.

(** The table of a space is the same in both states. *)
Definition table_kept (sp : Space) (s s' : State E) : Prop :=
  match sp with
  | Connection => db_table s' = db_table s
  | Statement => stmt_table s' = stmt_table s
  | StringEntry => string_table s' = string_table s
  end.

End Host.

(** [t'] is [t] with exactly one new entry, [x] under [handle]. *)
Definition adds_entry {A} (t t' : gmap Z A) (handle : Z) (x : A) : Prop :=
  t !! handle = None /\ t' = <[handle := x]> t.

(** [t'] is [t] without the entry it had under [handle]. *)
Definition removes_entry {A} (t t' : gmap Z A) (handle : Z) : Prop :=
  is_Some (t !! handle) /\ t' = delete handle t.

(** ** The operation table of the spec (section 4.3) *)

(** The validated argument tags of each operation. *)
Definition signature (op : Op) : list PhasorValueType :=
  match op with
  | OpOpen => [PHASOR_TYPE_STRING]
  | OpClose => [PHASOR_TYPE_INT]
  | OpExec => [PHASOR_TYPE_INT; PHASOR_TYPE_STRING]
  | OpPrepare => [PHASOR_TYPE_INT; PHASOR_TYPE_STRING]
  | OpStep => [PHASOR_TYPE_INT]
  | OpColumn => [PHASOR_TYPE_INT; PHASOR_TYPE_INT]
  | OpFinalize => [PHASOR_TYPE_INT]
  | OpFreeString => [PHASOR_TYPE_INT]
  end.

(** The failure result of each operation. *)
Definition failure_value (op : Op) : PhasorValue :=
  match op with
  | OpOpen => VNull
  | OpClose => VBool false
  | OpExec => VBool false
  | OpPrepare => VNull
  | OpStep => VNull
  | OpColumn => VNull
  | OpFinalize => VBool false
  | OpFreeString => VNull
  end.

(** The table a call may write: its own handle space, if it has one. *)
Definition own_space (op : Op) : option Space :=
  match op with
  | OpOpen | OpClose => Some Connection
  | OpPrepare | OpFinalize => Some Statement
  | OpColumn | OpFreeString => Some StringEntry
  | OpExec | OpStep => None
  end.

(** The contract of [sqlite3_open]: with [SQLITE_OK] comes a connection. *)
Definition open_gives_connection (E : Engine) : Prop :=
  forall filename w rc db w',
    eng_open E filename w = (rc, db, w') -> rc = SQLITE_OK -> db <> nullptr.

(** ** Reading aids for the other properties *)

(** The operation that allocates in a space. *)
Definition creator (sp : Space) : Op :=
  match sp with
  | Connection => OpOpen
  | Statement => OpPrepare
  | StringEntry => OpColumn
  end.

(** The result with which the creator of a space reports an allocation. *)
Definition reports_allocation (sp : Space) (r : PhasorValue) (handle : Z) : Prop :=
  match sp with
  | Connection | Statement => r = VInt handle
  | StringEntry => exists text, r = VString (Some text)
  end.

(** The table in which an operation looks its first argument up. *)
Definition resolves_in (op : Op) : option Space :=
  match op with
  | OpClose | OpExec | OpPrepare => Some Connection
  | OpStep | OpColumn | OpFinalize => Some Statement
  | OpOpen | OpFreeString => None
  end.

(** The tags an operation's [return] statements can produce. *)
Definition result_tags (op : Op) : list PhasorValueType :=
  match op with
  | OpOpen | OpPrepare => [PHASOR_TYPE_NULL; PHASOR_TYPE_INT]
  | OpClose | OpExec | OpFinalize => [PHASOR_TYPE_BOOL]
  | OpStep => [PHASOR_TYPE_NULL; PHASOR_TYPE_BOOL]
  | OpColumn =>
      [PHASOR_TYPE_NULL; PHASOR_TYPE_INT; PHASOR_TYPE_FLOAT; PHASOR_TYPE_STRING]
  | OpFreeString => [PHASOR_TYPE_NULL]
  end.


(** *** phasor_plugin_entry *)

(** [PhasorNativeFunction]: what the host can register. *)
Definition PhasorNativeFunction (E : Engine) : Type :=
  list PhasorValue -> State E -> PhasorValue * State E.

(** The entry point: eight calls of the host's [register_function], in the
    order of the source.  The host's side of a registration is whatever
    [register_function] does to the host's state [vm]. *)
Definition phasor_plugin_entry {E : Engine} {VM : Type}
    (register_function : VM -> string -> PhasorNativeFunction E -> VM)
    (vm : VM) : VM :=
  let vm := register_function vm "sqlite_open"%string sqlite_open in
  let vm := register_function vm "sqlite_close"%string sqlite_close in
  let vm := register_function vm "sqlite_exec"%string sqlite_exec in
  let vm := register_function vm "sqlite_prepare"%string sqlite_prepare in
  let vm := register_function vm "sqlite_step"%string sqlite_step in
  let vm := register_function vm "sqlite_column"%string sqlite_column in
  let vm := register_function vm "sqlite_finalize"%string sqlite_finalize in
  register_function vm "sqlite_free_string"%string sqlite_free_string.

(** A host that keeps the registrations in a list, the latest first, and
    calls the latest function registered under a name. *)
Definition FunctionTable (E : Engine) : Type :=
  list (string * PhasorNativeFunction E).

Definition table_register {E : Engine} (vm : FunctionTable E) (name : string)
    (func : PhasorNativeFunction E) : FunctionTable E :=
  (name, func) :: vm.

Fixpoint table_lookup {E : Engine} (vm : FunctionTable E) (name : string)
  : option (PhasorNativeFunction E) :=
  match vm with
  | [] => None
  | (n, func) :: vm' => if String.eqb n name then Some func else table_lookup vm' name
  end.

(** The name each operation is registered under. *)
Definition op_name (op : Op) : string :=
  match op with
  | OpOpen => "sqlite_open"
  | OpClose => "sqlite_close"
  | OpExec => "sqlite_exec"
  | OpPrepare => "sqlite_prepare"
  | OpStep => "sqlite_step"
  | OpColumn => "sqlite_column"
  | OpFinalize => "sqlite_finalize"
  | OpFreeString => "sqlite_free_string"
  end%string.

(** ** A small engine to run the bridge on

    One table with the three columns of the spec's scenario A (an integer,
    a float, a text) and two rows; the world is the number of steps taken.
    The integer column holds a value beyond 32 bits. *)
Module Mock.

Definition conn : ptr := 4096.
Definition cursor : ptr := 8192.
Definition big : Z := 4294967303.

Definition engine : Engine := {|
  World := Z;
  eng_open := fun filename w =>
    match filename with
    | Some _ => (SQLITE_OK, conn, w)
    | None => (14, nullptr, w)
    end;
  eng_close := fun _ w => (SQLITE_OK, w);
  eng_exec := fun _ sql w =>
    match sql with
    | Some _ => (SQLITE_OK, None, w)
    | None => (21, Some "bad parameter"%string, w)
    end;
  eng_free := fun _ w => w;
  eng_prepare_v2 := fun _ sql w =>
    match sql with
    | Some EmptyString => (SQLITE_OK, nullptr, w)
    | Some _ => (SQLITE_OK, cursor, 0)
    | None => (21, nullptr, w)
    end;
  eng_step := fun _ w =>
    if w <? 2 then (SQLITE_ROW, w + 1)
    else if w =? 2 then (SQLITE_DONE, w + 1)
    else (21, w);
  eng_column_count := fun _ _ => 3;
  eng_column_type := fun _ i _ =>
    if i =? 0 then SQLITE_INTEGER
    else if i =? 1 then SQLITE_FLOAT else SQLITE_TEXT;
  eng_column_int64 := fun _ _ _ => big;
  eng_column_double := fun _ _ _ => 4612811918334230528;
  eng_column_text := fun _ _ _ => "x"%string;
  eng_finalize := fun _ w => (SQLITE_OK, w)
|}.

Definition start : State engine := init engine 0.

Definition path : PhasorValue := VString (Some "test.db"%string).
Definition query : PhasorValue := VString (Some "SELECT a,b,c FROM t"%string).

(** Open a connection and close it again, [n] times over; the [k]-th
    round closes the handle [first + k], converted to [int]. *)
Definition round (first : Z) (k : nat) : list Call :=
  [(OpOpen, [path]); (OpClose, [VInt (to_int (first + Z.of_nat k))])].

Definition rounds (first : Z) (n : nat) : list Call :=
  flat_map (round first) (seq 0 n).

(** open, prepare: a statement that has not been stepped. *)
Definition prepared : State engine :=
  snd (run [(OpOpen, [path]); (OpPrepare, [VInt 1; query])] start).

(** open, prepare, step: a statement positioned on its first row. *)
Definition on_row : State engine :=
  snd (run [(OpOpen, [path]); (OpPrepare, [VInt 1; query]); (OpStep, [VInt 1])]
           start).

(** The text column of the first row has been read once. *)
Definition with_string : State engine :=
  snd (sqlite_column [VInt 1; VInt 2] on_row).

End Mock.

(** Further states of the small engine. *)
Module Scene.

(** One connection is open, under handle 1. *)
Definition opened : State Mock.engine :=
  snd (sqlite_open [Mock.path] Mock.start).

(** A text without SQL: the engine answers [SQLITE_OK] and no statement;
    handle 1 of the statement table holds the null pointer. *)
Definition no_sql : option string := Some ""%string.

Definition hollow : State Mock.engine :=
  snd (run [(OpOpen, [Mock.path]); (OpPrepare, [VInt 1; VString no_sql])]
           Mock.start).

End Scene.

(** * Properties *)

(** ** The conversion to [int] *)

Lemma to_int_id z : is_int z -> to_int z = z.
Proof.
  unfold is_int, INT_MIN, INT_MAX, to_int. intros Hz.
  rewrite Z.mod_small; lia.
Qed.

Lemma to_int_is_int z : is_int (to_int z).
Proof.
  unfold is_int, INT_MIN, INT_MAX, to_int.
  pose proof (Z.mod_pos_bound (z + 2147483648) 4294967296). lia.
Qed.

Lemma to_int_period z k : to_int (z + k * 4294967296) = to_int z.
Proof.
  unfold to_int.
  replace (z + k * 4294967296 + 2147483648)
    with (z + 2147483648 + k * 4294967296) by lia.
  now rewrite Z.mod_add.
Qed.

Lemma to_int_idem z : to_int (to_int z) = to_int z.
Proof. apply to_int_id, to_int_is_int. Qed.

Lemma to_int_succ_ne z : to_int (z + 1) <> z.
Proof.
  unfold to_int. intros H.
  pose proof (Z.div_mod (z + 1 + 2147483648) 4294967296). lia.
Qed.

Lemma to_int_add_l a b : to_int (to_int a + b) = to_int (a + b).
Proof.
  unfold to_int.
  replace ((a + 2147483648) mod 4294967296 - 2147483648 + b + 2147483648)
    with ((a + 2147483648) mod 4294967296 + b) by lia.
  rewrite Zplus_mod_idemp_l. do 2 f_equal. lia.
Qed.

Lemma to_int_seqZ a n : to_int <$> seqZ (to_int a) n = to_int <$> seqZ a n.
Proof.
  assert (Hs : forall x, seqZ x n = Z.add x <$> seqZ 0 n)
    by (intros x; rewrite fmap_add_seqZ; f_equal; lia).
  rewrite (Hs (to_int a)), (Hs a), <- !list_fmap_compose.
  apply list_fmap_ext. intros _ k _. simpl. apply to_int_add_l.
Qed.

Lemma to_int_inj_window x y :
  to_int x = to_int y -> -4294967296 < x - y < 4294967296 -> x = y.
Proof.
  unfold to_int. intros H Hw.
  pose proof (Z.div_mod (x + 2147483648) 4294967296).
  pose proof (Z.div_mod (y + 2147483648) 4294967296). lia.
Qed.

Lemma seqZ_sorted m n : StronglySorted Z.lt (seqZ m n).
Proof.
  destruct (Z.le_gt_cases n 0) as [Hn | Hn].
  { rewrite seqZ_nil by lia. constructor. }
  rewrite <- (Z2Nat.id n) by lia. clear Hn. revert m.
  induction (Z.to_nat n) as [|k IH]; intros m.
  - rewrite seqZ_nil by lia. constructor.
  - rewrite seqZ_cons by lia. replace (Z.pred (Z.of_nat (S k))) with (Z.of_nat k) by lia.
    constructor; [apply IH|]. apply Forall_seqZ. lia.
Qed.

(** ** The argument checks *)

Lemma check_arity1 (p : PhasorValue -> bool) argv :
  negb (argc argv =? 1) || negb (p (arg argv 0)) = false
  <-> exists a, argv = [a] /\ p a = true.
Proof.
  unfold argc, arg. split.
  - destruct argv as [|a [|b l]]; simpl length; intros H.
    + discriminate.
    + exists a. split; [reflexivity|]. simpl in H. now destruct (p a).
    + exfalso. apply orb_false_elim in H as [H _].
      apply negb_false_iff, Z.eqb_eq in H. simpl length in H. lia.
  - intros (a & -> & Hp). simpl. now rewrite Hp.
Qed.

Lemma check_arity2 (p q : PhasorValue -> bool) argv :
  negb (argc argv =? 2) || negb (p (arg argv 0)) || negb (q (arg argv 1)) = false
  <-> exists a b, argv = [a; b] /\ p a = true /\ q b = true.
Proof.
  unfold argc, arg. split.
  - destruct argv as [|a [|b [|c l]]]; simpl length; intros H.
    + discriminate.
    + discriminate.
    + exists a, b. split; [reflexivity|]. simpl in H.
      destruct (p a), (q b); simpl in H; auto; discriminate.
    + exfalso. apply orb_false_elim in H as [H _].
      apply orb_false_elim in H as [H _].
      apply negb_false_iff, Z.eqb_eq in H. simpl length in H. lia.
  - intros (a & b & -> & Hp & Hq). simpl. now rewrite Hp, Hq.
Qed.

Lemma is_int_type a : phasor_is_int a = true <-> type a = PHASOR_TYPE_INT.
Proof. unfold phasor_is_int. destruct a; simpl; split; congruence. Qed.

Lemma is_string_type a : phasor_is_string a = true <-> type a = PHASOR_TYPE_STRING.
Proof. unfold phasor_is_string. destruct a; simpl; split; congruence. Qed.

Section Theory.

Context {E : Engine}.

Implicit Types (s : State E) (argv : list PhasorValue).

(** Where an argument check passes, the tags are those of the signature. *)
Lemma passes_signature1 (p : PhasorValue -> bool) t argv :
  (forall a, p a = true <-> type a = t) ->
  negb (argc argv =? 1) || negb (p (arg argv 0)) = false ->
  map type argv = [t].
Proof.
  intros Hp (a & -> & Ha)%check_arity1. simpl. f_equal. now apply Hp.
Qed.

Lemma passes_signature2 (p q : PhasorValue -> bool) t u argv :
  (forall a, p a = true <-> type a = t) ->
  (forall a, q a = true <-> type a = u) ->
  negb (argc argv =? 2) || negb (p (arg argv 0)) || negb (q (arg argv 1)) = false ->
  map type argv = [t; u].
Proof.
  intros Hp Hq (a & b & -> & Ha & Hb)%check_arity2. simpl.
  f_equal; [now apply Hp | f_equal; now apply Hq].
Qed.

Lemma bridge_bad_shape op argv s :
  map type argv <> signature op -> bridge op argv s = (failure_value op, s).
Proof.
  intros Hbad.
  destruct op; simpl;
    unfold sqlite_open, sqlite_close, sqlite_exec, sqlite_prepare, sqlite_step,
      sqlite_column, sqlite_finalize, sqlite_free_string;
    match goal with
    | |- (if ?c then _ else _) = _ => destruct c eqn:Hc; [reflexivity | exfalso]
    end; apply Hbad; simpl;
    first [ eapply passes_signature1; [| exact Hc]
          | eapply passes_signature2; [| | exact Hc] ];
    auto using is_int_type, is_string_type.
Qed.

(** Case analysis along the branches of a bridge function. *)
Ltac branches :=
  repeat match goal with
  | |- context [match ?x with _ => _ end] =>
      lazymatch x with
      | context [match _ with _ => _ end] => fail
      | _ => let H := fresh "Hb" in destruct x eqn:H; simpl
      end
  end.

Ltac open_bridge :=
  unfold sqlite_open, sqlite_close, sqlite_exec, sqlite_prepare, sqlite_step,
    sqlite_column, sqlite_finalize, sqlite_free_string, store_string,
    free_string, get_string, get_db, get_stmt,
    sqlite3_open, sqlite3_close, sqlite3_exec, sqlite3_free,
    sqlite3_prepare_v2, sqlite3_step, sqlite3_column_count,
    sqlite3_column_type, sqlite3_column_int, sqlite3_column_double,
    sqlite3_column_text, sqlite3_finalize.

(** Claim C2.  Whatever the operation, an argument array whose tags are not
    those of the operation's signature (a wrong count, or a wrong tag at some
    position) gets the operation's failure value; no call into the engine is
    made, the engine's world is the same, and the three tables and the three
    counters are unchanged. *)
Theorem bad_arguments_fail_without_effect op argv s :
  map type argv <> signature op ->
  fst (bridge op argv s) = failure_value op
  /\ no_native_call s (snd (bridge op argv s))
  /\ same_registry s (snd (bridge op argv s)).
Proof.
  intros Hbad. rewrite (bridge_bad_shape op argv s Hbad). simpl.
  unfold no_native_call, same_registry. tauto.
Qed.

(** Claim C5.  [sqlite_close], on any arguments, leaves the statement table
    and the string table (and their counters) as they were: every statement
    handle resolves after the call to what it resolved to before, and so
    does every string handle. *)
Theorem close_leaves_statements_and_strings argv s :
  let s' := snd (sqlite_close argv s) in
  stmt_table s' = stmt_table s
  /\ string_table s' = string_table s
  /\ next_stmt_handle s' = next_stmt_handle s
  /\ next_string_handle s' = next_string_handle s
  /\ (forall handle, get_stmt handle s' = get_stmt handle s)
  /\ (forall handle, get_string handle s' = get_string handle s).
Proof.
  open_bridge. branches; repeat split; reflexivity.
Qed.

Lemma state_eta s :
  mkState (db_table s) (stmt_table s) (string_table s) (next_db_handle s)
          (next_stmt_handle s) (next_string_handle s) (world s)
          (native_calls s) = s.
Proof. now destruct s. Qed.

(** Claim C8.  [sqlite_free_string] returns null on every argument array.
    It never touches the connection table, the statement table or a counter,
    and never calls the engine.  Given one integer, it erases the string
    entry under that integer converted to [int] (the integer itself when it
    is in the range of [int]); when there is no such entry the state is
    unchanged, as it is for every ill-shaped argument array. *)
Theorem free_string_returns_null argv s :
  let s' := snd (sqlite_free_string argv s) in
  fst (sqlite_free_string argv s) = VNull
  /\ db_table s' = db_table s /\ stmt_table s' = stmt_table s
  /\ next_db_handle s' = next_db_handle s
  /\ next_stmt_handle s' = next_stmt_handle s
  /\ next_string_handle s' = next_string_handle s
  /\ no_native_call s s'
  /\ (forall handle, argv = [VInt handle] ->
        string_table s' = delete (to_int handle) (string_table s))
  /\ (forall handle, argv = [VInt handle] -> is_int handle ->
        string_table s' = delete handle (string_table s))
  /\ (forall handle, argv = [VInt handle] ->
        string_table s !! to_int handle = None -> s' = s)
  /\ (map type argv <> signature OpFreeString -> s' = s).
Proof.
  cbv zeta. unfold no_native_call.
  repeat apply conj; try (open_bridge; branches; reflexivity).
  - intros handle ->. reflexivity.
  - intros handle -> Hh. simpl. now rewrite (to_int_id handle Hh).
  - intros handle -> Hnone. simpl. unfold free_string, set_string.
    rewrite (delete_id _ _ Hnone). apply state_eta.
  - intros Hbad. pose proof (bridge_bad_shape OpFreeString argv s Hbad) as H.
    simpl in H. now rewrite H.
Qed.

Lemma to_int_shift v : to_int (v + 4294967296) = to_int v.
Proof. exact (to_int_period v 1). Qed.

Lemma to_int_of_int64 v : to_int (to_int64 v) = to_int v.
Proof.
  unfold to_int64.
  pose proof (Z.div_mod (v + 9223372036854775808) 18446744073709551616) as H.
  replace ((v + 9223372036854775808) mod 18446744073709551616
           - 9223372036854775808)
    with (v + (- ((v + 9223372036854775808) / 18446744073709551616)
              * 4294967296) * 4294967296) by lia.
  apply to_int_period.
Qed.

(** Every operation gives the same result and the same state on [v] and on
    [v + 2^32]. *)
Lemma bridge_shift op v rest s :
  bridge op (VInt (v + 4294967296) :: rest) s = bridge op (VInt v :: rest) s.
Proof.
  destruct op; simpl; open_bridge; unfold arg, argc; simpl;
    rewrite ?to_int_shift; reflexivity.
Qed.

(** Claim C6.  [sqlite_step] on an ill-shaped argument array returns null and
    changes nothing; so it does on one integer that resolves to no statement
    entry.  On one integer that resolves to a statement, the engine is
    stepped once, and the result is true when the engine answers
    [SQLITE_ROW], false when it answers [SQLITE_DONE], null on any other
    code. *)
Theorem step_result argv s :
  (map type argv <> signature OpStep -> sqlite_step argv s = (VNull, s))
  /\ (forall v, argv = [VInt v] -> stmt_table s !! to_int v = None ->
        sqlite_step argv s = (VNull, s))
  /\ (forall v stmt, argv = [VInt v] ->
        stmt_table s !! to_int v = Some stmt -> stmt <> nullptr ->
        let rc := fst (eng_step E stmt (world s)) in
        native_calls (snd (sqlite_step argv s)) = native_calls s ++ [CallStep stmt]
        /\ world (snd (sqlite_step argv s)) = snd (eng_step E stmt (world s))
        /\ (rc = SQLITE_ROW -> fst (sqlite_step argv s) = VBool true)
        /\ (rc = SQLITE_DONE -> fst (sqlite_step argv s) = VBool false)
        /\ (rc <> SQLITE_ROW -> rc <> SQLITE_DONE ->
             fst (sqlite_step argv s) = VNull)).
Proof.
  repeat apply conj.
  - intros Hbad. exact (bridge_bad_shape OpStep argv s Hbad).
  - intros v -> Hnone. unfold sqlite_step, get_stmt. simpl.
    now rewrite Hnone.
  - intros v stmt -> Hsome Hnn. unfold sqlite_step, get_stmt, sqlite3_step. simpl.
    rewrite Hsome. simpl.
    destruct (Z.eqb_spec stmt nullptr) as [|_]; [contradiction|].
    destruct (eng_step E stmt (world s)) as [rc w]. simpl.
    destruct (Z.eqb_spec rc SQLITE_ROW), (Z.eqb_spec rc SQLITE_DONE);
      simpl; repeat split; intros; subst; try reflexivity;
      try contradiction; discriminate.
Qed.

(** Claim C4.  On an engine whose [sqlite3_open] hands out a connection
    together with [SQLITE_OK]: when [sqlite_open] returns the handle
    [handle], [sqlite_close] on that handle right afterwards returns true
    and closes the connection once; a second [sqlite_close] on the same
    handle returns false and leaves the whole state, log of engine calls
    included, as it was. *)
Theorem open_close_close argv s handle s1 :
  open_gives_connection E ->
  is_int (next_db_handle s) ->
  sqlite_open argv s = (VInt handle, s1) ->
  exists db,
    db_table s1 !! handle = Some db
    /\ fst (sqlite_close [VInt handle] s1) = VBool true
    /\ native_calls (snd (sqlite_close [VInt handle] s1))
         = native_calls s1 ++ [CallClose db]
    /\ sqlite_close [VInt handle] (snd (sqlite_close [VInt handle] s1))
         = (VBool false, snd (sqlite_close [VInt handle] s1)).
Proof.
  intros Hcontract Hint. unfold sqlite_open.
  destruct (negb (argc argv =? 1) || negb (phasor_is_string (arg argv 0)))
    eqn:Hc; [discriminate|].
  unfold sqlite3_open.
  destruct (eng_open E (phasor_to_string (arg argv 0)) (world s))
    as [[rc db] w] eqn:Hopen.
  destruct (Z.eqb_spec rc SQLITE_OK) as [Hrc | Hrc]; simpl.
  2: { unfold sqlite3_close. destruct (eng_close _ _ _). discriminate. }
  intros [= <- <-]. exists db.
  assert (Hdb : db <> nullptr) by (eapply Hcontract; eauto).
  unfold sqlite_close, sqlite3_close. simpl.
  rewrite (to_int_id _ Hint), lookup_insert_eq. simpl.
  destruct (Z.eqb_spec db nullptr) as [|_]; [contradiction|]. simpl.
  destruct (eng_close E db w) as [rc' w'] eqn:Hclose. simpl.
  rewrite lookup_delete_eq. simpl.
  repeat split; reflexivity.
Qed.

Lemma run_cons op argv cs s :
  run ((op, argv) :: cs) s
  = (fst (bridge op argv s) :: fst (run cs (snd (bridge op argv s))),
     snd (run cs (snd (bridge op argv s)))).
Proof.
  simpl. destruct (bridge op argv s) as [r s1]. simpl.
  now destruct (run cs s1).
Qed.

Lemma run_app cs cs' s :
  run (cs ++ cs') s
  = (fst (run cs s) ++ fst (run cs' (snd (run cs s))),
     snd (run cs' (snd (run cs s)))).
Proof.
  revert s. induction cs as [|[op argv] cs IH]; intros s.
  - simpl. now destruct (run cs' s).
  - rewrite <- app_comm_cons, !run_cons, IH. reflexivity.
Qed.

(** One read with an index that the bounds check rejects. *)
Lemma column_rejected v i stmt s :
  stmt_table s !! to_int v = Some stmt -> stmt <> nullptr ->
  to_int i < 0 \/ eng_column_count E stmt (world s) <= to_int i ->
  sqlite_column [VInt v; VInt i] s
  = (VNull, native (CallColumnCount stmt) (world s) s).
Proof.
  intros Hsome Hnn Hout. unfold sqlite_column, get_stmt, sqlite3_column_count.
  simpl. rewrite Hsome. simpl.
  destruct (Z.eqb_spec stmt nullptr) as [|_]; [contradiction|].
  destruct (Z.ltb_spec (to_int i) 0); simpl; [reflexivity|].
  destruct (Z.geb_spec (to_int i) (eng_column_count E stmt (world s)));
    [reflexivity | lia].
Qed.

(** Claim C7, as the code has it: the index is compared after its conversion
    to [int].  With a live statement and an index whose conversion is below 0
    or not below the column count, [sqlite_column] returns null however often
    it is called; tables, counters and the engine's world stay as they were,
    and the only engine call each time is the one for the column count: no
    column value is read. *)
Theorem column_out_of_range v i stmt s n :
  stmt_table s !! to_int v = Some stmt -> stmt <> nullptr ->
  to_int i < 0 \/ eng_column_count E stmt (world s) <= to_int i ->
  let out := run (repeat (OpColumn, [VInt v; VInt i]) n) s in
  fst out = repeat VNull n
  /\ same_registry s (snd out)
  /\ world (snd out) = world s
  /\ native_calls (snd out) = native_calls s ++ repeat (CallColumnCount stmt) n
  /\ Forall (fun c => reads_column c = false) (repeat (CallColumnCount stmt) n).
Proof.
  intros Hsome Hnn Hout. cbv zeta.
  assert (Hreads : Forall (fun c => reads_column c = false)
                     (repeat (CallColumnCount stmt) n))
    by (apply Forall_forall; intros c ->%list_elem_of_In%repeat_spec;
        reflexivity).
  cut (fst (run (repeat (OpColumn, [VInt v; VInt i]) n) s) = repeat VNull n
       /\ same_registry s (snd (run (repeat (OpColumn, [VInt v; VInt i]) n) s))
       /\ world (snd (run (repeat (OpColumn, [VInt v; VInt i]) n) s)) = world s
       /\ native_calls (snd (run (repeat (OpColumn, [VInt v; VInt i]) n) s))
          = native_calls s ++ repeat (CallColumnCount stmt) n); [tauto|].
  clear Hreads. revert s Hsome Hout.
  induction n as [|n IH]; intros s Hsome Hout.
  - simpl. unfold same_registry. rewrite app_nil_r. tauto.
  - change (repeat (OpColumn, [VInt v; VInt i]) (S n))
      with ((OpColumn, [VInt v; VInt i]) :: repeat (OpColumn, [VInt v; VInt i]) n).
    rewrite run_cons. simpl bridge.
    rewrite (column_rejected v i stmt s Hsome Hnn Hout). simpl fst. simpl snd.
    destruct (IH (native (CallColumnCount stmt) (world s) s))
      as (Hr & Hreg & Hw & Hcalls); [exact Hsome | exact Hout |].
    rewrite Hr, Hw, Hcalls. simpl.
    split; [reflexivity|]. split; [exact Hreg|].
    split; [reflexivity | now rewrite <- app_assoc].
Qed.

(** An index within the range of [int] is compared as it is. *)
Corollary column_out_of_range_int v i stmt s :
  stmt_table s !! to_int v = Some stmt -> stmt <> nullptr -> is_int i ->
  i < 0 \/ eng_column_count E stmt (world s) <= i ->
  fst (sqlite_column [VInt v; VInt i] s) = VNull.
Proof.
  intros Hsome Hnn Hi Hout.
  rewrite (column_rejected v i stmt s Hsome Hnn); [reflexivity|].
  now rewrite (to_int_id i Hi).
Qed.

(** Claim C1 on the code.  With a live statement, an index in range and a
    column of integer type, [sqlite_column] returns an integer: the 64-bit
    value of the column converted to [int], as [sqlite3_column_int] hands
    it over.  That is the value of the column when it fits 32 bits, and a
    different integer when it does not. *)
Theorem integer_column_is_truncated v i stmt s :
  stmt_table s !! to_int v = Some stmt -> stmt <> nullptr ->
  0 <= to_int i < eng_column_count E stmt (world s) ->
  eng_column_type E stmt (to_int i) (world s) = SQLITE_INTEGER ->
  let value := eng_column_int64 E stmt (to_int i) (world s) in
  fst (sqlite_column [VInt v; VInt i] s) = VInt (to_int value)
  /\ (is_int value -> fst (sqlite_column [VInt v; VInt i] s) = VInt value)
  /\ (~ is_int value -> fst (sqlite_column [VInt v; VInt i] s) <> VInt value).
Proof.
  intros Hsome Hnn Hin Hty. cbv zeta.
  assert (Hres : fst (sqlite_column [VInt v; VInt i] s)
                 = VInt (to_int (eng_column_int64 E stmt (to_int i) (world s)))).
  { unfold sqlite_column, get_stmt, sqlite3_column_count, sqlite3_column_type,
      sqlite3_column_int.
    simpl. rewrite Hsome. simpl.
    destruct (Z.eqb_spec stmt nullptr) as [|_]; [contradiction|].
    destruct (Z.ltb_spec (to_int i) 0); [lia|].
    destruct (Z.geb_spec (to_int i) (eng_column_count E stmt (world s))); [lia|].
    simpl. now rewrite Hty. }
  rewrite Hres. split; [reflexivity|]. split.
  - intros Hint. now rewrite (to_int_id _ Hint).
  - intros Hout [= Heq]. apply Hout. rewrite <- Heq. apply to_int_is_int.
Qed.

(** ** Allocation in a handle space *)

(** A call either leaves the counter of a space alone and adds no handle,
    or it stores one entry under the counter and increments it. *)
Lemma space_step sp op argv s :
  let s' := snd (bridge op argv s) in
  (counter sp s' = counter sp s /\ live sp s' ⊆ live sp s)
  \/ (counter sp s' = to_int (counter sp s + 1)
      /\ live sp s' = {[counter sp s]} ∪ live sp s).
Proof.
  destruct sp, op; simpl; open_bridge; branches;
    first [ left; split; [reflexivity | reflexivity]
          | left; split; [reflexivity | apply subseteq_dom, delete_subseteq]
          | right; split; [reflexivity | apply dom_insert_L] ].
Qed.

Lemma allocated_None sp op argv s :
  allocated sp (op, argv) s = None ->
  counter sp (snd (bridge op argv s)) = counter sp s
  /\ live sp (snd (bridge op argv s)) ⊆ live sp s.
Proof.
  unfold allocated. simpl.
  destruct (Z.eqb_spec (counter sp (snd (bridge op argv s))) (counter sp s))
    as [Heq | Hne]; [intros _ | discriminate].
  destruct (space_step sp op argv s) as [H | [Hc _]]; [exact H|].
  exfalso. rewrite Hc in Heq. exact (to_int_succ_ne _ Heq).
Qed.

Lemma allocated_Some sp op argv s handle :
  allocated sp (op, argv) s = Some handle ->
  handle = counter sp s
  /\ counter sp (snd (bridge op argv s)) = to_int (handle + 1)
  /\ live sp (snd (bridge op argv s)) = {[handle]} ∪ live sp s.
Proof.
  unfold allocated. simpl.
  destruct (Z.eqb_spec (counter sp (snd (bridge op argv s))) (counter sp s))
    as [Heq | Hne]; [discriminate | intros [= <-]].
  destruct (space_step sp op argv s) as [[Hc _] | H]; [contradiction | tauto].
Qed.

(** Settles the comparison of the counter before and after a call. *)
Ltac allocation_test :=
  try reflexivity;
  match goal with
  | H : (?c =? ?c) = false |- _ => rewrite Z.eqb_refl in H; discriminate H
  | H : (to_int (?c + 1) =? ?c) = true |- _ =>
      apply Z.eqb_eq in H; now apply to_int_succ_ne in H
  end.

(** The handle a call allocates is the one it hands back: [sqlite_open] and
    [sqlite_prepare] return it, [sqlite_column] stores the text it returns
    under it. *)
Lemma allocated_open argv s :
  allocated Connection (OpOpen, argv) s
  = match fst (sqlite_open argv s) with VInt handle => Some handle | _ => None end.
Proof.
  unfold allocated. cbn [fst snd bridge counter]. open_bridge.
  branches; allocation_test.
Qed.

Lemma allocated_prepare argv s :
  allocated Statement (OpPrepare, argv) s
  = match fst (sqlite_prepare argv s) with VInt handle => Some handle | _ => None end.
Proof.
  unfold allocated. cbn [fst snd bridge counter]. open_bridge.
  branches; allocation_test.
Qed.

Lemma allocated_column argv s :
  allocated StringEntry (OpColumn, argv) s
  = match fst (sqlite_column argv s) with
    | VString _ => Some (next_string_handle s)
    | _ => None
    end.
Proof.
  unfold allocated. cbn [fst snd bridge counter]. open_bridge.
  branches; allocation_test.
Qed.

Lemma issued_app sp cs cs' s :
  issued sp (cs ++ cs') s = issued sp cs s ++ issued sp cs' (snd (run cs s)).
Proof.
  revert s. induction cs as [|[op argv] cs IH]; intros s; [reflexivity|].
  rewrite <- app_comm_cons, run_cons. simpl. now rewrite IH, app_assoc.
Qed.

(** A handle that is live after a script was live before it or was
    allocated by it. *)
Lemma live_run sp cs s handle :
  handle ∈ live sp (snd (run cs s)) ->
  handle ∈ live sp s \/ handle ∈ issued sp cs s.
Proof.
  revert s. induction cs as [|[op argv] cs IH]; intros s; [now left|].
  rewrite run_cons. simpl snd. intros [Hl | Hi]%IH.
  - destruct (allocated sp (op, argv) s) as [h|] eqn:Ha.
    + pose proof (allocated_Some _ _ _ _ _ Ha) as (-> & _ & Hlive).
      rewrite Hlive in Hl. simpl. rewrite Ha. simpl.
      apply elem_of_union in Hl as [->%elem_of_singleton | Hl];
        [right; apply elem_of_cons; now left | now left].
    + apply allocated_None in Ha as [_ Hsub]. left. now apply Hsub.
  - right. simpl. apply elem_of_app. now right.
Qed.

(** The handles a script allocates are the successive values of the
    counter. *)
Lemma issued_counts sp cs s :
  is_int (counter sp s) ->
  let n := Z.of_nat (length (issued sp cs s)) in
  issued sp cs s = to_int <$> seqZ (counter sp s) n
  /\ counter sp (snd (run cs s)) = to_int (counter sp s + n).
Proof.
  cbv zeta. revert s. induction cs as [|[op argv] cs IH]; intros s Hint.
  - simpl. rewrite Z.add_0_r. now rewrite (to_int_id _ Hint).
  - rewrite run_cons. simpl snd. simpl issued.
    destruct (allocated sp (op, argv) s) as [h|] eqn:Ha.
    + apply allocated_Some in Ha as (-> & Hc & _).
      assert (Hint' : is_int (counter sp (snd (bridge op argv s))))
        by (rewrite Hc; apply to_int_is_int).
      destruct (IH _ Hint') as [Hi Hn]. rewrite Hn, Hc.
      simpl option_list. simpl app. simpl length.
      rewrite seqZ_cons by lia. rewrite fmap_cons, (to_int_id _ Hint).
      split.
      * f_equal. rewrite Hi at 1. rewrite Hc, to_int_seqZ.
        do 2 f_equal; lia.
      * rewrite to_int_add_l. f_equal. lia.
    + apply allocated_None in Ha as [Hc _].
      assert (Hint' : is_int (counter sp (snd (bridge op argv s))))
        by now rewrite Hc.
      destruct (IH _ Hint') as [Hi Hn]. simpl. now rewrite <- Hc.
Qed.

Lemma init_is_int w sp : is_int (counter sp (init E w)).
Proof. destruct sp; unfold is_int, INT_MIN, INT_MAX; simpl; lia. Qed.

Lemma init_counter w sp : counter sp (init E w) = 1.
Proof. now destruct sp. Qed.

Lemma init_live w sp : live sp (init E w) = ∅.
Proof. destruct sp; simpl; apply dom_empty_L. Qed.

(** From the start, the handles come out as 1, 2, 3, ... converted to
    [int]. *)
Lemma issued_from_init w sp cs :
  let n := Z.of_nat (length (issued sp cs (init E w))) in
  issued sp cs (init E w) = to_int <$> seqZ 1 n
  /\ counter sp (snd (run cs (init E w))) = to_int (1 + n).
Proof.
  pose proof (issued_counts sp cs (init E w) (init_is_int w sp)) as H.
  now rewrite init_counter in H.
Qed.

Lemma issued_nodup w sp cs :
  Z.of_nat (length (issued sp cs (init E w))) <= 4294967296 ->
  NoDup (issued sp cs (init E w)).
Proof.
  intros Hn. destruct (issued_from_init w sp cs) as [-> _].
  apply NoDup_fmap_2_strong; [|apply NoDup_seqZ].
  intros x y [Hx1 Hx2]%elem_of_seqZ [Hy1 Hy2]%elem_of_seqZ Heq.
  apply to_int_inj_window; [exact Heq | lia].
Qed.

(** Until the counter has come round, its value is not a live handle. *)
Lemma counter_fresh w sp cs :
  Z.of_nat (length (issued sp cs (init E w))) < 4294967296 ->
  counter sp (snd (run cs (init E w))) ∉ live sp (snd (run cs (init E w))).
Proof.
  intros Hn Hlive. apply live_run in Hlive as [Hl | Hi].
  { rewrite init_live in Hl. now apply not_elem_of_empty in Hl. }
  destruct (issued_from_init w sp cs) as [Hiss Hc].
  revert Hiss Hc Hn.
  generalize (Z.of_nat (length (issued sp cs (init E w)))).
  intros n Hiss Hc Hn. rewrite Hc, Hiss in Hi.
  apply list_elem_of_fmap in Hi as (x & Heq & [Hx1 Hx2]%elem_of_seqZ).
  apply to_int_inj_window in Heq; lia.
Qed.

(** Claim C3, as far as the 32-bit counters carry it.  In each of the three
    spaces the counter starts at 1.  As long as a script has allocated at
    most [INT_MAX] handles in a space, these are 1, 2, 3, ... in this order,
    each greater than all before it.  As long as it has allocated at most
    2^32, a handle that was allocated and is no longer in the table is not
    in the table at any later point either. *)
Theorem handles_monotone_until_wrap w sp cs1 cs2 :
  let s0 := init E w in
  let all := issued sp (cs1 ++ cs2) s0 in
  counter sp s0 = 1
  /\ (Z.of_nat (length all) <= INT_MAX ->
      all = seqZ 1 (Z.of_nat (length all)) /\ StronglySorted Z.lt all)
  /\ (Z.of_nat (length all) <= 4294967296 ->
      forall handle,
        handle ∈ issued sp cs1 s0 ->
        handle ∉ live sp (snd (run cs1 s0)) ->
        handle ∉ live sp (snd (run (cs1 ++ cs2) s0))).
Proof.
  cbv zeta. split; [apply init_counter|]. split.
  - intros Hn. destruct (issued_from_init w sp (cs1 ++ cs2)) as [Hiss _].
    assert (Hid : to_int <$> seqZ 1 (Z.of_nat (length (issued sp (cs1 ++ cs2) (init E w))))
                  = seqZ 1 (Z.of_nat (length (issued sp (cs1 ++ cs2) (init E w))))).
    { rewrite <- (list_fmap_id (seqZ 1 _)) at 2. apply list_fmap_ext.
      intros _ x [Hx1 Hx2]%list_elem_of_lookup_2%elem_of_seqZ.
      apply to_int_id. unfold is_int, INT_MIN, INT_MAX in *. simpl. lia. }
    rewrite Hid in Hiss. split; [exact Hiss|].
    rewrite Hiss. apply seqZ_sorted.
  - intros Hn handle Hi Hdead Hlive.
    pose proof (issued_nodup w sp (cs1 ++ cs2) Hn) as Hnd.
    rewrite issued_app in Hnd. apply NoDup_app in Hnd as (_ & Hdisj & _).
    rewrite run_app in Hlive. simpl snd in Hlive.
    apply live_run in Hlive as [Hl | Hi2]; [contradiction|].
    exact (Hdisj handle Hi Hi2).
Qed.

(** ** What each call does to the tables *)

Lemma adds_entry_size {A} (t t' : gmap Z A) handle x :
  adds_entry t t' handle x -> size t' = S (size t).
Proof. intros [Hnone ->]. now apply map_size_insert_None. Qed.

Lemma removes_entry_size {A} (t t' : gmap Z A) handle :
  removes_entry t t' handle -> size t = S (size t').
Proof.
  intros [Hsome ->]. rewrite (map_size_delete_Some _ _ Hsome).
  pose proof (map_size_ne_0_lookup_2 t handle Hsome). lia.
Qed.

Lemma foreign_tables_kept op argv s sp :
  own_space op <> Some sp -> table_kept sp s (snd (bridge op argv s)).
Proof.
  destruct sp, op; simpl; intros Hsp; try congruence;
    open_bridge; branches; reflexivity.
Qed.

Lemma open_effect argv s handle :
  fst (sqlite_open argv s) = VInt handle ->
  handle = next_db_handle s
  /\ exists db, db_table (snd (sqlite_open argv s))
                = <[handle := db]> (db_table s).
Proof.
  open_bridge. branches; intros [= <-]. eauto.
Qed.

Lemma prepare_effect argv s handle :
  fst (sqlite_prepare argv s) = VInt handle ->
  handle = next_stmt_handle s
  /\ exists stmt, stmt_table (snd (sqlite_prepare argv s))
                  = <[handle := stmt]> (stmt_table s).
Proof.
  open_bridge. branches; intros [= <-]. eauto.
Qed.

Lemma column_text_effect argv s t :
  fst (sqlite_column argv s) = VString t ->
  exists str,
    t = Some str
    /\ string_table (snd (sqlite_column argv s))
       = <[next_string_handle s := str]> (string_table s).
Proof.
  open_bridge. branches; intros [= <-].
  rewrite lookup_insert_eq. eauto.
Qed.

Lemma close_effect argv s :
  fst (sqlite_close argv s) = VBool true ->
  exists handle, removes_entry (db_table s) (db_table (snd (sqlite_close argv s))) handle.
Proof.
  unfold removes_entry. open_bridge. branches; intros [=]; eauto.
Qed.

Lemma finalize_effect argv s :
  fst (sqlite_finalize argv s) = VBool true ->
  exists handle,
    removes_entry (stmt_table s) (stmt_table (snd (sqlite_finalize argv s))) handle.
Proof.
  unfold removes_entry. open_bridge. branches; intros [=]; eauto.
Qed.

(** Claim C9, as far as the 32-bit counters carry it.  After any script, a
    call leaves the tables of the spaces other than its own as they were.
    While the call's own space has seen fewer than 2^32 allocations, an open
    or a prepare that returns a handle, and a column read that returns a
    string, add exactly one entry to the table of their space, under a
    handle that had none.  A close or a finalize that returns true removes
    exactly one entry that was there. *)
Theorem registry_effects w cs op argv :
  let s0 := init E w in
  let s := snd (run cs s0) in
  let r := fst (bridge op argv s) in
  let s' := snd (bridge op argv s) in
  (forall sp, own_space op <> Some sp -> table_kept sp s s')
  /\ ((forall sp, own_space op = Some sp ->
         Z.of_nat (length (issued sp cs s0)) < 4294967296) ->
      (forall handle, op = OpOpen -> r = VInt handle ->
         exists db, adds_entry (db_table s) (db_table s') handle db)
      /\ (forall handle, op = OpPrepare -> r = VInt handle ->
         exists stmt, adds_entry (stmt_table s) (stmt_table s') handle stmt)
      /\ (forall t, op = OpColumn -> r = VString t ->
         exists handle str,
           t = Some str
           /\ adds_entry (string_table s) (string_table s') handle str))
  /\ (op = OpClose -> r = VBool true ->
      exists handle, removes_entry (db_table s) (db_table s') handle)
  /\ (op = OpFinalize -> r = VBool true ->
      exists handle, removes_entry (stmt_table s) (stmt_table s') handle).
Proof.
  cbv zeta. split; [intros sp; apply foreign_tables_kept|]. split.
  - intros Hn. repeat apply conj.
    + intros handle -> [-> [db Hdb]]%open_effect. exists db.
      split; [|exact Hdb].
      apply (not_elem_of_dom (db_table _)).
      apply (counter_fresh w Connection cs). now apply Hn.
    + intros handle -> [-> [stmt Hst]]%prepare_effect. exists stmt.
      split; [|exact Hst].
      apply (not_elem_of_dom (stmt_table _)).
      apply (counter_fresh w Statement cs). now apply Hn.
    + intros t -> (str & -> & Hstr)%column_text_effect.
      exists (next_string_handle (snd (run cs (init E w)))), str.
      split; [reflexivity|]. split; [|exact Hstr].
      apply (not_elem_of_dom (string_table _)).
      apply (counter_fresh w StringEntry cs). now apply Hn.
  - split; intros ->; [apply close_effect | apply finalize_effect].
Qed.

Lemma close_keeps_counter argv s :
  next_db_handle (snd (sqlite_close argv s)) = next_db_handle s.
Proof. open_bridge. branches; reflexivity. Qed.

(** ** Further properties of the registry helpers and the operations *)

Lemma nonnull_test (p : Z) : p <> nullptr -> (p =? nullptr) = false.
Proof. intros Hp. now apply Z.eqb_neq. Qed.


(** Claim C10.  The first argument of an operation, when it is an integer,
    is narrowed to a 32-bit [int] before any table is consulted.  The key
    used for [v] is the one value in the range of [int] that differs from
    [v] by a multiple of 2^32 ([v] itself when it is in that range), so
    every operation gives the same result and the same state on [v], on
    [v + 2^32] (also with the sum taken in 64 bits) and on the key.  And the
    large argument reaches the live entry: when the key of [v] holds a
    connection, close on [v + 2^32] closes that connection and erases the
    entry, exec and prepare run on it; when it holds a statement, step and
    column are made on that statement and finalize finalizes it and erases
    the entry; when it holds a string, free_string erases it. *)
Theorem handle_argument_is_truncated op v rest s :
  let big := v + 4294967296 in
  (is_int (to_int v) /\ (exists k, v = to_int v + k * 4294967296)
   /\ (is_int v -> to_int v = v))
  /\ bridge op (VInt big :: rest) s = bridge op (VInt v :: rest) s
  /\ bridge op (VInt (to_int64 big) :: rest) s = bridge op (VInt v :: rest) s
  /\ bridge op (VInt (to_int v) :: rest) s = bridge op (VInt v :: rest) s
  /\ (forall db, db_table s !! to_int v = Some db -> db <> nullptr ->
        get_db (to_int big) s = db
        /\ fst (sqlite_close [VInt big] s) = VBool true
        /\ native_calls (snd (sqlite_close [VInt big] s))
           = native_calls s ++ [CallClose db]
        /\ db_table (snd (sqlite_close [VInt big] s))
           = delete (to_int v) (db_table s)
        /\ (forall sql, exists tail,
              native_calls (snd (sqlite_exec [VInt big; VString sql] s))
              = native_calls s ++ CallExec db sql :: tail)
        /\ (forall sql,
              native_calls (snd (sqlite_prepare [VInt big; VString sql] s))
              = native_calls s ++ [CallPrepare db sql]))
  /\ (forall stmt, stmt_table s !! to_int v = Some stmt -> stmt <> nullptr ->
        get_stmt (to_int big) s = stmt
        /\ native_calls (snd (sqlite_step [VInt big] s))
           = native_calls s ++ [CallStep stmt]
        /\ (forall i, exists tail,
              native_calls (snd (sqlite_column [VInt big; VInt i] s))
              = native_calls s ++ CallColumnCount stmt :: tail)
        /\ fst (sqlite_finalize [VInt big] s) = VBool true
        /\ native_calls (snd (sqlite_finalize [VInt big] s))
           = native_calls s ++ [CallFinalize stmt]
        /\ stmt_table (snd (sqlite_finalize [VInt big] s))
           = delete (to_int v) (stmt_table s))
  /\ (forall str, string_table s !! to_int v = Some str ->
        get_string (to_int big) s = Some str
        /\ string_table (snd (sqlite_free_string [VInt big] s))
           = delete (to_int v) (string_table s)
        /\ string_table (snd (sqlite_free_string [VInt big] s)) !! to_int v
           = None).
Proof.
  cbv zeta. split; [|split; [|split; [|split; [|split; [|split]]]]].
  - split; [apply to_int_is_int|]. split; [|apply to_int_id].
    exists ((v + 2147483648) / 4294967296). unfold to_int.
    pose proof (Z.div_mod (v + 2147483648) 4294967296). lia.
  - apply bridge_shift.
  - destruct op; simpl; open_bridge; unfold arg, argc; simpl;
      rewrite ?to_int_of_int64, ?to_int_shift; reflexivity.
  - destruct op; simpl; open_bridge; unfold arg, argc; simpl;
      rewrite ?to_int_idem; reflexivity.
  - intros db Hsome Hnn. rewrite to_int_shift.
    repeat apply conj.
    + unfold get_db. now rewrite Hsome.
    + unfold sqlite_close, sqlite3_close. simpl.
      rewrite to_int_shift, Hsome. simpl. rewrite (nonnull_test db Hnn). simpl.
      now destruct (eng_close E db (world s)).
    + unfold sqlite_close, sqlite3_close. simpl.
      rewrite to_int_shift, Hsome. simpl. rewrite (nonnull_test db Hnn). simpl.
      now destruct (eng_close E db (world s)).
    + unfold sqlite_close, sqlite3_close. simpl.
      rewrite to_int_shift, Hsome. simpl. rewrite (nonnull_test db Hnn). simpl.
      now destruct (eng_close E db (world s)).
    + intros sql. unfold sqlite_exec, sqlite3_exec, sqlite3_free, get_db. simpl.
      rewrite to_int_shift, Hsome. simpl. rewrite (nonnull_test db Hnn).
      branches; eexists; rewrite <- ?app_assoc; simpl; reflexivity.
    + intros sql. unfold sqlite_prepare, sqlite3_prepare_v2, get_db. simpl.
      rewrite to_int_shift, Hsome. simpl. rewrite (nonnull_test db Hnn).
      branches; reflexivity.
  - intros stmt Hsome Hnn. rewrite to_int_shift.
    repeat apply conj.
    + unfold get_stmt. now rewrite Hsome.
    + unfold sqlite_step, sqlite3_step, get_stmt. simpl.
      rewrite to_int_shift, Hsome. simpl. rewrite (nonnull_test stmt Hnn).
      branches; reflexivity.
    + intros i. open_bridge. simpl.
      rewrite to_int_shift, Hsome. simpl. rewrite (nonnull_test stmt Hnn).
      branches; eexists; rewrite <- ?app_assoc; simpl; reflexivity.
    + unfold sqlite_finalize, sqlite3_finalize. simpl.
      rewrite to_int_shift, Hsome. simpl. rewrite (nonnull_test stmt Hnn). simpl.
      now destruct (eng_finalize E stmt (world s)).
    + unfold sqlite_finalize, sqlite3_finalize. simpl.
      rewrite to_int_shift, Hsome. simpl. rewrite (nonnull_test stmt Hnn). simpl.
      now destruct (eng_finalize E stmt (world s)).
    + unfold sqlite_finalize, sqlite3_finalize. simpl.
      rewrite to_int_shift, Hsome. simpl. rewrite (nonnull_test stmt Hnn). simpl.
      now destruct (eng_finalize E stmt (world s)).
  - intros str Hsome. rewrite to_int_shift.
    unfold get_string, sqlite_free_string, free_string. simpl.
    rewrite to_int_shift. split; [exact Hsome|].
    split; [reflexivity | apply lookup_delete_eq].
Qed.

(** X1.  The string helpers fit together: [store_string] files the text
    under the value the counter had and returns that value; [get_string]
    finds it there and finds every other handle as before; [free_string]
    makes the handle unknown again, leaves the other handles alone, changes
    nothing when repeated, and undoes a [store_string] whose handle was
    free. *)
Theorem string_registry_round_trip str handle s :
  let stored := snd (store_string str s) in
  fst (store_string str s) = next_string_handle s
  /\ get_string (next_string_handle s) stored = Some str
  /\ (forall other, other <> next_string_handle s ->
        get_string other stored = get_string other s)
  /\ get_string handle (free_string handle s) = None
  /\ (forall other, other <> handle ->
        get_string other (free_string handle s) = get_string other s)
  /\ free_string handle (free_string handle s) = free_string handle s
  /\ (get_string (next_string_handle s) s = None ->
      string_table (free_string (next_string_handle s) stored) = string_table s).
Proof.
  cbv zeta. unfold store_string, get_string, free_string, set_string. simpl.
  repeat apply conj.
  - reflexivity.
  - apply lookup_insert_eq.
  - intros other Hne. now apply lookup_insert_ne.
  - apply lookup_delete_eq.
  - intros other Hne. now apply lookup_delete_ne.
  - f_equal. apply delete_id, lookup_delete_eq.
  - intros Hfree. rewrite delete_insert_eq. now apply delete_id.
Qed.

(** X2.  When the engine's open does not answer [SQLITE_OK], [sqlite_open]
    returns null, hands the engine's pointer (null or not) to
    [sqlite3_close], and leaves the tables and the counters as they were:
    no handle is used up. *)
Theorem open_failure_closes_and_keeps_registry filename s rc db w :
  eng_open E filename (world s) = (rc, db, w) ->
  rc <> SQLITE_OK ->
  fst (sqlite_open [VString filename] s) = VNull
  /\ same_registry s (snd (sqlite_open [VString filename] s))
  /\ native_calls (snd (sqlite_open [VString filename] s))
     = native_calls s ++ [CallOpen filename; CallClose db]
  /\ world (snd (sqlite_open [VString filename] s)) = snd (eng_close E db w).
Proof.
  intros Hopen Hrc. unfold sqlite_open, sqlite3_open, sqlite3_close. simpl.
  rewrite Hopen. destruct (Z.eqb_spec rc SQLITE_OK) as [|_]; [contradiction|].
  simpl. destruct (eng_close E db w) as [rc' w'] eqn:Hclose. simpl.
  unfold same_registry. rewrite <- app_assoc. simpl. tauto.
Qed.

(** X3.  When the engine's open answers [SQLITE_OK], [sqlite_open] returns
    the value of the connection counter; that handle now resolves to the
    engine's connection, every other handle resolves as before, the counter
    has moved on by one, and the only engine call is the open. *)
Theorem open_success_resolves filename s db w :
  eng_open E filename (world s) = (SQLITE_OK, db, w) ->
  is_int (next_db_handle s) ->
  let handle := next_db_handle s in
  let s' := snd (sqlite_open [VString filename] s) in
  fst (sqlite_open [VString filename] s) = VInt handle
  /\ get_db (to_int handle) s' = db
  /\ (forall other, other <> handle -> get_db other s' = get_db other s)
  /\ next_db_handle s' = to_int (handle + 1)
  /\ native_calls s' = native_calls s ++ [CallOpen filename]
  /\ world s' = w
  /\ table_kept Statement s s' /\ table_kept StringEntry s s'.
Proof.
  intros Hopen Hint. cbv zeta. unfold sqlite_open, sqlite3_open, get_db. simpl.
  rewrite Hopen. simpl. rewrite (to_int_id _ Hint), lookup_insert_eq.
  repeat split. intros other Hne. now rewrite lookup_insert_ne.
Qed.

(** X4.  [sqlite_exec] on a handle that resolves to a connection runs the
    SQL once on that connection.  It returns true exactly when the engine
    answers [SQLITE_OK]; otherwise it returns false, and frees the engine's
    error message when there is one.  Either way no table and no counter
    changes. *)
Theorem exec_on_live_connection v sql s db rc err w :
  get_db (to_int v) s = db -> db <> nullptr ->
  eng_exec E db sql (world s) = (rc, err, w) ->
  let r := sqlite_exec [VInt v; VString sql] s in
  same_registry s (snd r)
  /\ fst r = VBool (rc =? SQLITE_OK)
  /\ (rc = SQLITE_OK ->
      native_calls (snd r) = native_calls s ++ [CallExec db sql]
      /\ world (snd r) = w)
  /\ (rc <> SQLITE_OK -> err = None ->
      native_calls (snd r) = native_calls s ++ [CallExec db sql]
      /\ world (snd r) = w)
  /\ (rc <> SQLITE_OK -> err <> None ->
      native_calls (snd r) = native_calls s ++ [CallExec db sql; CallFree err]
      /\ world (snd r) = eng_free E err w).
Proof.
  intros Hdb Hnn Hexec. cbv zeta.
  unfold sqlite_exec, sqlite3_exec, sqlite3_free. simpl.
  rewrite Hdb, (nonnull_test db Hnn), Hexec.
  destruct (Z.eqb_spec rc SQLITE_OK) as [Hrc | Hrc]; simpl.
  - unfold same_registry. repeat split; intros; try reflexivity; contradiction.
  - destruct err as [msg|]; simpl; unfold same_registry;
      repeat split; intros; try reflexivity; try contradiction;
      try congruence.
    now rewrite <- app_assoc.
Qed.

Lemma bridge_unknown_handle op sp v rest s :
  resolves_in op = Some sp ->
  to_int v ∉ live sp s ->
  bridge op (VInt v :: rest) s = (failure_value op, s).
Proof.
  intros Hop Hdead.
  destruct op; simpl in Hop; try discriminate; injection Hop as <-;
    cbn [live] in Hdead; apply not_elem_of_dom in Hdead; simpl;
    open_bridge; unfold arg; simpl; rewrite Hdead; simpl;
    branches; reflexivity.
Qed.

(** X5.  An integer that, converted to [int], is no key of the table an
    operation looks it up in: close, exec, prepare, step, column and
    finalize return their failure value and leave the whole state as it
    was, whatever the other arguments are. *)
Theorem unknown_handle_fails op sp v rest s :
  resolves_in op = Some sp ->
  to_int v ∉ live sp s ->
  bridge op (VInt v :: rest) s = (failure_value op, s).
Proof. apply bridge_unknown_handle. Qed.

(** X6.  [sqlite_prepare] on a handle that resolves to a connection compiles
    the SQL once on that connection and touches neither the connection table
    nor the string table.  Without [SQLITE_OK] it returns null and no
    statement entry appears.  With [SQLITE_OK] it returns the value of the
    statement counter and files the engine's statement under it, as it is,
    null or not; the handle resolves to that statement, the other handles as
    before, and a step on the handle steps that statement. *)
Theorem prepare_outcomes v sql s db rc stmt w :
  get_db (to_int v) s = db -> db <> nullptr ->
  eng_prepare_v2 E db sql (world s) = (rc, stmt, w) ->
  is_int (next_stmt_handle s) ->
  let handle := next_stmt_handle s in
  let r := sqlite_prepare [VInt v; VString sql] s in
  native_calls (snd r) = native_calls s ++ [CallPrepare db sql]
  /\ world (snd r) = w
  /\ table_kept Connection s (snd r) /\ table_kept StringEntry s (snd r)
  /\ (rc <> SQLITE_OK -> fst r = VNull /\ same_registry s (snd r))
  /\ (rc = SQLITE_OK ->
      fst r = VInt handle
      /\ stmt_table (snd r) = <[handle := stmt]> (stmt_table s)
      /\ next_stmt_handle (snd r) = to_int (handle + 1)
      /\ get_stmt (to_int handle) (snd r) = stmt
      /\ (forall other, other <> handle ->
            get_stmt other (snd r) = get_stmt other s)
      /\ (stmt <> nullptr ->
          native_calls (snd (sqlite_step [VInt handle] (snd r)))
          = native_calls s ++ [CallPrepare db sql; CallStep stmt])).
Proof.
  intros Hdb Hnn Hprep Hint. cbv zeta.
  unfold sqlite_prepare, sqlite3_prepare_v2. simpl.
  rewrite Hdb, (nonnull_test db Hnn), Hprep.
  destruct (Z.eqb_spec rc SQLITE_OK) as [Hrc | Hrc]; simpl.
  - repeat split; try (intros; contradiction).
    + unfold get_stmt. simpl. now rewrite (to_int_id _ Hint), lookup_insert_eq.
    + intros other Hne. unfold get_stmt. simpl. now rewrite lookup_insert_ne.
    + intros Hst. unfold sqlite_step, sqlite3_step, get_stmt. simpl.
      rewrite (to_int_id _ Hint), lookup_insert_eq. simpl.
      rewrite (nonnull_test stmt Hst).
      destruct (eng_step E stmt w) as [rc' w']. simpl.
      destruct (rc' =? SQLITE_ROW); [|destruct (rc' =? SQLITE_DONE)];
        simpl; now rewrite <- app_assoc.
  - unfold same_registry. repeat split; intros; try reflexivity; contradiction.
Qed.

(** X7.  After a [sqlite_close] that returned true, the handle is dead: it
    resolves to nothing, and exec, prepare and a further close on it fail
    without reaching the engine.  The close itself reached the engine once,
    with the connection the handle stood for, and every other handle
    resolves as before. *)
Theorem use_after_close argv s :
  fst (sqlite_close argv s) = VBool true ->
  let s' := snd (sqlite_close argv s) in
  exists v db,
    argv = [VInt v]
    /\ db_table s !! to_int v = Some db /\ db <> nullptr
    /\ native_calls s' = native_calls s ++ [CallClose db]
    /\ get_db (to_int v) s' = nullptr
    /\ (forall other, other <> to_int v -> get_db other s' = get_db other s)
    /\ (forall rest, sqlite_exec (VInt v :: rest) s' = (VBool false, s'))
    /\ (forall rest, sqlite_prepare (VInt v :: rest) s' = (VNull, s'))
    /\ (forall rest, sqlite_close (VInt v :: rest) s' = (VBool false, s')).
Proof.
  cbv zeta. unfold sqlite_close at 1.
  destruct (negb (argc argv =? 1) || negb (phasor_is_int (arg argv 0))) eqn:Hc;
    [discriminate|].
  apply check_arity1 in Hc as (a & -> & Ha). destruct a; try discriminate.
  clear Ha. simpl. unfold sqlite_close, sqlite3_close. simpl.
  destruct (db_table s !! to_int i) as [db|] eqn:Hl; simpl; [|discriminate].
  destruct (Z.eqb_spec db nullptr) as [|Hnn]; simpl; [discriminate|].
  destruct (eng_close E db (world s)) as [rc w] eqn:Hclose. simpl. intros _.
  exists i, db.
  set (s' := native (CallClose db) w
               (set_db (delete (to_int i) (db_table s)) (next_db_handle s) s)).
  assert (Hdead : to_int i ∉ live Connection s').
  { unfold s'. simpl. apply not_elem_of_dom, lookup_delete_eq. }
  repeat split; try assumption.
  - unfold get_db. simpl. now rewrite lookup_delete_eq.
  - intros other Hne. unfold get_db. simpl. now rewrite lookup_delete_ne.
  - intros rest. exact (bridge_unknown_handle OpExec Connection i rest s' eq_refl Hdead).
  - intros rest. exact (bridge_unknown_handle OpPrepare Connection i rest s' eq_refl Hdead).
  - intros rest. exact (bridge_unknown_handle OpClose Connection i rest s' eq_refl Hdead).
Qed.

(** X8.  After a [sqlite_finalize] that returned true, the handle is dead:
    step and column on it return null and a further finalize returns false,
    none of them reaching the engine.  The finalize itself reached the
    engine once, with the statement the handle stood for, and every other
    handle resolves as before. *)
Theorem use_after_finalize argv s :
  fst (sqlite_finalize argv s) = VBool true ->
  let s' := snd (sqlite_finalize argv s) in
  exists v stmt,
    argv = [VInt v]
    /\ stmt_table s !! to_int v = Some stmt /\ stmt <> nullptr
    /\ native_calls s' = native_calls s ++ [CallFinalize stmt]
    /\ get_stmt (to_int v) s' = nullptr
    /\ (forall other, other <> to_int v -> get_stmt other s' = get_stmt other s)
    /\ (forall rest, sqlite_step (VInt v :: rest) s' = (VNull, s'))
    /\ (forall rest, sqlite_column (VInt v :: rest) s' = (VNull, s'))
    /\ (forall rest, sqlite_finalize (VInt v :: rest) s' = (VBool false, s')).
Proof.
  cbv zeta. unfold sqlite_finalize at 1.
  destruct (negb (argc argv =? 1) || negb (phasor_is_int (arg argv 0))) eqn:Hc;
    [discriminate|].
  apply check_arity1 in Hc as (a & -> & Ha). destruct a; try discriminate.
  clear Ha. simpl. unfold sqlite_finalize, sqlite3_finalize. simpl.
  destruct (stmt_table s !! to_int i) as [stmt|] eqn:Hl; simpl; [|discriminate].
  destruct (Z.eqb_spec stmt nullptr) as [|Hnn]; simpl; [discriminate|].
  destruct (eng_finalize E stmt (world s)) as [rc w] eqn:Hfin. simpl. intros _.
  exists i, stmt.
  set (s' := native (CallFinalize stmt) w
               (set_stmt (delete (to_int i) (stmt_table s)) (next_stmt_handle s) s)).
  assert (Hdead : to_int i ∉ live Statement s').
  { unfold s'. simpl. apply not_elem_of_dom, lookup_delete_eq. }
  repeat split; try assumption.
  - unfold get_stmt. simpl. now rewrite lookup_delete_eq.
  - intros other Hne. unfold get_stmt. simpl. now rewrite lookup_delete_ne.
  - intros rest. exact (bridge_unknown_handle OpStep Statement i rest s' eq_refl Hdead).
  - intros rest. exact (bridge_unknown_handle OpColumn Statement i rest s' eq_refl Hdead).
  - intros rest. exact (bridge_unknown_handle OpFinalize Statement i rest s' eq_refl Hdead).
Qed.

(** X9.  A statement entry that holds the null pointer (what [sqlite_prepare]
    files when the engine answers [SQLITE_OK] without a statement): step and
    column on its handle return null and change nothing; finalize returns
    false, as for an unknown handle, yet erases the entry; the engine is
    never reached. *)
Theorem null_statement_entry v s :
  stmt_table s !! to_int v = Some nullptr ->
  let s' := snd (sqlite_finalize [VInt v] s) in
  (forall rest, sqlite_step (VInt v :: rest) s = (VNull, s))
  /\ (forall rest, sqlite_column (VInt v :: rest) s = (VNull, s))
  /\ fst (sqlite_finalize [VInt v] s) = VBool false
  /\ stmt_table s' = delete (to_int v) (stmt_table s)
  /\ stmt_table s' !! to_int v = None
  /\ no_native_call s s'
  /\ next_stmt_handle s' = next_stmt_handle s.
Proof.
  intros Hnull. cbv zeta. repeat apply conj.
  - intros rest. unfold sqlite_step, get_stmt, arg. simpl. rewrite Hnull. simpl.
    branches; reflexivity.
  - intros rest. unfold sqlite_column, get_stmt, arg. simpl. rewrite Hnull.
    simpl. branches; reflexivity.
  - unfold sqlite_finalize. simpl. now rewrite Hnull.
  - unfold sqlite_finalize. simpl. now rewrite Hnull.
  - unfold sqlite_finalize. simpl. rewrite Hnull. simpl. apply lookup_delete_eq.
  - unfold sqlite_finalize. simpl. now rewrite Hnull.
  - unfold sqlite_finalize. simpl. now rewrite Hnull.
  - unfold sqlite_finalize. simpl. now rewrite Hnull.
Qed.

(** The checks of [sqlite_column] pass: the statement is live and the index,
    converted to [int], is in range. *)
Lemma column_reads_type v i stmt s :
  stmt_table s !! to_int v = Some stmt -> stmt <> nullptr ->
  0 <= to_int i < eng_column_count E stmt (world s) ->
  sqlite_column [VInt v; VInt i] s
  = let s2 := native (CallColumnType stmt (to_int i)) (world s)
                (native (CallColumnCount stmt) (world s) s) in
    let type := eng_column_type E stmt (to_int i) (world s) in
    if type =? SQLITE_INTEGER then
      let '(x, s3) := sqlite3_column_int stmt (to_int i) s2 in (VInt x, s3)
    else if type =? SQLITE_FLOAT then
      let '(f, s3) := sqlite3_column_double stmt (to_int i) s2 in (VFloat f, s3)
    else if type =? SQLITE_TEXT then
      let '(str, s3) := sqlite3_column_text stmt (to_int i) s2 in
      let '(str_handle, s4) := store_string str s3 in
      (VString (get_string str_handle s4), s4)
    else (VNull, s2).
Proof.
  intros Hsome Hnn Hin.
  unfold sqlite_column, get_stmt, sqlite3_column_count, sqlite3_column_type.
  simpl. rewrite Hsome. simpl. rewrite (nonnull_test stmt Hnn).
  destruct (Z.ltb_spec (to_int i) 0); [lia|].
  destruct (Z.geb_spec (to_int i) (eng_column_count E stmt (world s))); [lia|].
  simpl. now destruct (_ =? SQLITE_NULL).
Qed.

(** X10.  Reading a text column: the host gets the engine's text, and a copy
    is filed in the string table under the value the string counter had,
    which the host is not told.  Freeing that value removes the copy; when
    the value was no live handle before, the string table is then what it
    was before the read. *)
Theorem column_text_then_free v i stmt s :
  stmt_table s !! to_int v = Some stmt -> stmt <> nullptr ->
  0 <= to_int i < eng_column_count E stmt (world s) ->
  eng_column_type E stmt (to_int i) (world s) = SQLITE_TEXT ->
  is_int (next_string_handle s) ->
  let text := eng_column_text E stmt (to_int i) (world s) in
  let c := next_string_handle s in
  let r := sqlite_column [VInt v; VInt i] s in
  let freed := snd (sqlite_free_string [VInt c] (snd r)) in
  fst r = VString (Some text)
  /\ string_table (snd r) = <[c := text]> (string_table s)
  /\ next_string_handle (snd r) = to_int (c + 1)
  /\ table_kept Connection s (snd r) /\ table_kept Statement s (snd r)
  /\ native_calls (snd r)
     = native_calls s ++ [CallColumnCount stmt; CallColumnType stmt (to_int i);
                          CallColumnText stmt (to_int i)]
  /\ get_string c freed = None
  /\ (get_string c s = None -> string_table freed = string_table s).
Proof.
  intros Hsome Hnn Hin Hty Hint. cbv zeta.
  rewrite (column_reads_type v i stmt s Hsome Hnn Hin). cbv zeta.
  rewrite Hty. simpl.
  unfold sqlite_free_string, free_string, get_string. simpl.
  rewrite lookup_insert_eq, (to_int_id _ Hint), delete_insert_eq, lookup_delete_eq.
  repeat split.
  - now rewrite <- !app_assoc.
  - intros Hfree. now apply delete_id.
Qed.

(** X11.  Reading a column that is neither integer nor text: a float column
    gives the engine's double as a float; every other type code, the null
    type and the blob type among them, gives null without any read of the
    value.  No table and no counter changes. *)
Theorem column_float_and_null v i stmt s :
  stmt_table s !! to_int v = Some stmt -> stmt <> nullptr ->
  0 <= to_int i < eng_column_count E stmt (world s) ->
  let type := eng_column_type E stmt (to_int i) (world s) in
  let r := sqlite_column [VInt v; VInt i] s in
  type <> SQLITE_INTEGER -> type <> SQLITE_TEXT ->
  same_registry s (snd r) /\ world (snd r) = world s
  /\ (type = SQLITE_FLOAT ->
      fst r = VFloat (eng_column_double E stmt (to_int i) (world s))
      /\ native_calls (snd r)
         = native_calls s ++ [CallColumnCount stmt; CallColumnType stmt (to_int i);
                              CallColumnDouble stmt (to_int i)])
  /\ (type <> SQLITE_FLOAT ->
      fst r = VNull
      /\ native_calls (snd r)
         = native_calls s ++ [CallColumnCount stmt; CallColumnType stmt (to_int i)]).
Proof.
  intros Hsome Hnn Hin. cbv zeta. intros Hni Hnt.
  rewrite (column_reads_type v i stmt s Hsome Hnn Hin). cbv zeta.
  destruct (Z.eqb_spec (eng_column_type E stmt (to_int i) (world s)) SQLITE_INTEGER)
    as [|_]; [contradiction|].
  destruct (Z.eqb_spec (eng_column_type E stmt (to_int i) (world s)) SQLITE_TEXT)
    as [|_]; [contradiction|].
  destruct (Z.eqb_spec (eng_column_type E stmt (to_int i) (world s)) SQLITE_FLOAT)
    as [Hf|Hf]; simpl; unfold same_registry;
    repeat split; intros; try reflexivity; try contradiction;
    now rewrite <- !app_assoc.
Qed.

(** X12.  The tag of a result depends on the operation only within fixed
    bounds: close, exec and finalize always return a bool; open and prepare
    an int or null; step a bool or null; column an int, a float, a string or
    null; free_string null.  No operation returns an array. *)
Theorem result_tag_of_operation op argv s :
  In (type (fst (bridge op argv s))) (result_tags op)
  /\ type (fst (bridge op argv s)) <> PHASOR_TYPE_ARRAY.
Proof.
  destruct op; simpl; open_bridge; branches; split; simpl;
    try discriminate; tauto.
Qed.

(** X16.  A handle is used up only by a success.  A call moves the counter
    of a space exactly when it is the creating operation of that space (open,
    prepare, column) and reports success: an open or a prepare by returning
    the old counter value as the handle, a column read by returning a
    string.  Then the counter moves on by one.  Every other call, every
    failure included, leaves the counter where it was. *)
Theorem handle_used_up_only_by_success sp op argv s :
  let r := fst (bridge op argv s) in
  let s' := snd (bridge op argv s) in
  (counter sp s' = counter sp s
   /\ ~ (op = creator sp /\ reports_allocation sp r (counter sp s)))
  \/ (counter sp s' = to_int (counter sp s + 1)
      /\ counter sp s' <> counter sp s
      /\ op = creator sp /\ reports_allocation sp r (counter sp s)).
Proof.
  cbv zeta.
  destruct sp, op; simpl; open_bridge; branches;
    first
      [ left; split; [reflexivity|]; intros [Hop Hr]; simpl in *;
        first [ discriminate Hop | discriminate Hr
              | destruct Hr as [text Hr]; discriminate Hr ]
      | right; split; [reflexivity|]; split; [apply to_int_succ_ne|];
        split; [reflexivity|]; simpl;
        first [ reflexivity | rewrite lookup_insert_eq; eauto ] ].
Qed.

(** Counters and keys that are [int]s stay so across a call. *)
Lemma ints_step sp op argv s :
  is_int (counter sp s) -> (forall handle, handle ∈ live sp s -> is_int handle) ->
  is_int (counter sp (snd (bridge op argv s)))
  /\ (forall handle, handle ∈ live sp (snd (bridge op argv s)) -> is_int handle).
Proof.
  intros Hc Hl. destruct (space_step sp op argv s) as [[Hc' Hl'] | [Hc' Hl']].
  - rewrite Hc'. split; [exact Hc|]. intros handle Hin. apply Hl, Hl', Hin.
  - rewrite Hc', Hl'. split; [apply to_int_is_int|].
    intros handle [->%elem_of_singleton | Hin]%elem_of_union; auto.
Qed.

Lemma ints_run sp cs s :
  is_int (counter sp s) -> (forall handle, handle ∈ live sp s -> is_int handle) ->
  is_int (counter sp (snd (run cs s)))
  /\ (forall handle, handle ∈ live sp (snd (run cs s)) -> is_int handle).
Proof.
  revert s. induction cs as [|[op argv] cs IH]; intros s Hc Hl; [now split|].
  rewrite run_cons. simpl snd.
  destruct (ints_step sp op argv s Hc Hl) as [Hc' Hl']. now apply IH.
Qed.

(** X13.  Whatever calls the host has made since the plugin was loaded, every
    counter and every key of the three tables is within the range of [int].
    So the conversion of an argument to [int] never hides an entry from the
    host: a live connection is closed, a live statement finalized and a
    stored string freed by passing the key itself. *)
Theorem live_handles_are_reachable w cs :
  let s := snd (run cs (init E w)) in
  (forall sp, is_int (counter sp s))
  /\ (forall sp handle, handle ∈ live sp s -> is_int handle)
  /\ (forall handle db, db_table s !! handle = Some db -> db <> nullptr ->
        fst (sqlite_close [VInt handle] s) = VBool true)
  /\ (forall handle stmt, stmt_table s !! handle = Some stmt -> stmt <> nullptr ->
        fst (sqlite_finalize [VInt handle] s) = VBool true)
  /\ (forall handle str, string_table s !! handle = Some str ->
        string_table (snd (sqlite_free_string [VInt handle] s)) !! handle = None).
Proof.
  cbv zeta.
  assert (Hints : forall sp,
            is_int (counter sp (snd (run cs (init E w))))
            /\ (forall handle, handle ∈ live sp (snd (run cs (init E w))) ->
                  is_int handle)).
  { intros sp. apply ints_run; [apply init_is_int|].
    intros handle Hin. rewrite init_live in Hin.
    now apply not_elem_of_empty in Hin. }
  split; [intros sp; apply Hints|]. split; [intros sp; apply Hints|].
  repeat apply conj.
  - intros handle db Hsome Hnn.
    assert (Hi : is_int handle)
      by (apply (proj2 (Hints Connection)); simpl; apply elem_of_dom; eauto).
    unfold sqlite_close, sqlite3_close. simpl.
    rewrite (to_int_id _ Hi), Hsome. simpl. rewrite (nonnull_test db Hnn). simpl.
    now destruct (eng_close E db _).
  - intros handle stmt Hsome Hnn.
    assert (Hi : is_int handle)
      by (apply (proj2 (Hints Statement)); simpl; apply elem_of_dom; eauto).
    unfold sqlite_finalize, sqlite3_finalize. simpl.
    rewrite (to_int_id _ Hi), Hsome. simpl. rewrite (nonnull_test stmt Hnn). simpl.
    now destruct (eng_finalize E stmt _).
  - intros handle str Hsome.
    assert (Hi : is_int handle)
      by (apply (proj2 (Hints StringEntry)); simpl; apply elem_of_dom; eauto).
    unfold sqlite_free_string, free_string. simpl.
    rewrite (to_int_id _ Hi). apply lookup_delete_eq.
Qed.




(** X15.  On a host that keeps the latest function registered under each
    name, the entry point makes eight registrations; each of the eight names
    then calls the operation of that name, and no other name calls
    anything. *)
Theorem plugin_entry_registers_operations :
  let vm := phasor_plugin_entry (E := E) table_register [] in
  length vm = 8%nat
  /\ (forall op, table_lookup vm (op_name op) = Some (bridge op))
  /\ (forall op op', op_name op = op_name op' -> op = op')
  /\ (forall name, (forall op, name <> op_name op) -> table_lookup vm name = None).
Proof.
  cbv zeta. split; [reflexivity|]. split; [intros []; reflexivity|].
  split; [intros [] []; simpl; intros Heq; try reflexivity; discriminate Heq|].
  intros name Hother. unfold phasor_plugin_entry, table_register.
  cbn [table_lookup].
  repeat match goal with
  | |- context [String.eqb ?n name] =>
      destruct (String.eqb_spec n name) as [Heq|_];
      [ exfalso;
        first [ exact (Hother OpOpen (eq_sym Heq))
              | exact (Hother OpClose (eq_sym Heq))
              | exact (Hother OpExec (eq_sym Heq))
              | exact (Hother OpPrepare (eq_sym Heq))
              | exact (Hother OpStep (eq_sym Heq))
              | exact (Hother OpColumn (eq_sym Heq))
              | exact (Hother OpFinalize (eq_sym Heq))
              | exact (Hother OpFreeString (eq_sym Heq)) ]
      | ]
  end.
  reflexivity.
Qed.

End Theory.

(** * The bridge on the small engine *)

Lemma mock_open (s : State Mock.engine) :
  sqlite_open [Mock.path] s
  = (VInt (next_db_handle s),
     set_db (<[next_db_handle s := Mock.conn]> (db_table s))
            (to_int (next_db_handle s + 1))
            (native (CallOpen (Some "test.db"%string)) (world s) s)).
Proof. reflexivity. Qed.

Lemma mock_close_live (s : State Mock.engine) handle :
  db_table s !! to_int handle = Some Mock.conn ->
  sqlite_close [VInt handle] s
  = (VBool true,
     native (CallClose Mock.conn) (world s)
            (set_db (delete (to_int handle) (db_table s)) (next_db_handle s) s)).
Proof.
  intros Hsome. unfold sqlite_close. simpl. now rewrite Hsome.
Qed.

Lemma mock_open_allocates (s : State Mock.engine) :
  allocated Connection (OpOpen, [Mock.path]) s = Some (next_db_handle s).
Proof.
  unfold allocated. cbn [fst snd bridge]. rewrite mock_open.
  cbn [snd counter set_db next_db_handle].
  destruct (Z.eqb_spec (to_int (next_db_handle s + 1)) (next_db_handle s))
    as [Heq | _]; [|reflexivity].
  now apply to_int_succ_ne in Heq.
Qed.

Lemma close_allocates_nothing {E : Engine} argv (s : State E) :
  allocated Connection (OpClose, argv) s = None.
Proof.
  unfold allocated. cbn [fst snd bridge counter].
  now rewrite close_keeps_counter, Z.eqb_refl.
Qed.

(** Every round allocates one connection handle. *)
Lemma rounds_issue first (l : list nat) (s : State Mock.engine) :
  length (issued Connection (flat_map (Mock.round first) l) s) = length l.
Proof.
  revert s. induction l as [|k l IH]; intros s; [reflexivity|].
  cbn [flat_map]. unfold Mock.round at 1. cbn [app issued fst snd].
  fold Mock.path. rewrite mock_open_allocates, close_allocates_nothing.
  rewrite !length_app, IH. reflexivity.
Qed.

Lemma issued_after_rounds (n : nat) :
  issued Connection (Mock.rounds 1 n) Mock.start
  = to_int <$> seqZ 1 (Z.of_nat n).
Proof.
  unfold Mock.start.
  destruct (issued_from_init (E := Mock.engine) 0 Connection (Mock.rounds 1 n))
    as [Hiss _].
  unfold Mock.rounds in Hiss at 2. now rewrite rounds_issue, length_seq in Hiss.
Qed.

Lemma not_sorted_after_wrap (n : nat) :
  Z.of_nat n = 2147483648 ->
  issued Connection (Mock.rounds 1 n) Mock.start
  = (to_int <$> seqZ 1 2147483646) ++ [INT_MAX; INT_MIN]
  /\ ~ StronglySorted Z.lt (issued Connection (Mock.rounds 1 n) Mock.start).
Proof.
  intros Hn. rewrite issued_after_rounds, Hn.
  change 2147483648 with (2147483646 + 2).
  rewrite seqZ_app, fmap_app by lia.
  change (to_int <$> seqZ (1 + 2147483646) 2) with [INT_MAX; INT_MIN].
  split; [reflexivity|]. intros Hsorted.
  apply StronglySorted_app_1_r in Hsorted.
  apply StronglySorted_cons in Hsorted as [Hlt _].
  apply Forall_cons in Hlt as [Hlt _]. unfold INT_MAX, INT_MIN in Hlt. lia.
Qed.

(** Claim C3 as stated fails: open and close a connection 2^31 times; the
    last handle allocated is [INT_MIN], right after [INT_MAX], so it is not
    greater than the handles allocated before it. *)
Lemma handles_not_increasing_after_wrap :
  issued Connection (Mock.rounds 1 (Z.to_nat 2147483648)) Mock.start
  = (to_int <$> seqZ 1 2147483646) ++ [INT_MAX; INT_MIN]
  /\ ~ StronglySorted Z.lt
        (issued Connection (Mock.rounds 1 (Z.to_nat 2147483648)) Mock.start).
Proof.
  apply not_sorted_after_wrap. apply Z2Nat.id. discriminate.
Qed.

Lemma run_round first k (s : State Mock.engine) :
  snd (run (Mock.round first k) s)
  = snd (sqlite_close [VInt (to_int (first + Z.of_nat k))]
           (snd (sqlite_open [Mock.path] s))).
Proof. unfold Mock.round. now rewrite !run_cons. Qed.

(** While handle 1 stays open, rounds of open and close leave the table as
    it is and move the counter on. *)
Lemma rounds_keep_first (n k0 : nat) (s : State Mock.engine) :
  db_table s = {[1 := Mock.conn]} ->
  next_db_handle s = to_int (2 + Z.of_nat k0) ->
  Z.of_nat k0 + Z.of_nat n <= 4294967295 ->
  db_table (snd (run (flat_map (Mock.round 2) (seq k0 n)) s)) = {[1 := Mock.conn]}
  /\ next_db_handle (snd (run (flat_map (Mock.round 2) (seq k0 n)) s))
     = to_int (2 + Z.of_nat k0 + Z.of_nat n).
Proof.
  revert k0 s. induction n as [|n IH]; intros k0 s Htab Hnext Hbound.
  - cbn [seq flat_map run snd]. rewrite Z.add_0_r. now split.
  - cbn [seq flat_map]. rewrite !run_app. cbn [snd]. rewrite run_round.
    rewrite mock_open. cbn [snd].
    assert (Hne : to_int (2 + Z.of_nat k0) <> 1).
    { intros Heq.
      assert (Heq' : to_int (2 + Z.of_nat k0) = to_int 1) by now rewrite Heq.
      apply to_int_inj_window in Heq'; lia. }
    rewrite mock_close_live.
    2: { rewrite to_int_idem. cbn [set_db db_table]. rewrite Hnext.
         apply lookup_insert_eq. }
    cbn [snd].
    match goal with
    | |- context [run _ ?s2] => destruct (IH (S k0) s2) as [Ht Hc]
    end.
    + cbn [native set_db db_table]. rewrite to_int_idem, Hnext, Htab.
      rewrite delete_insert_eq. apply delete_id.
      now apply lookup_singleton_ne.
    + cbn [native set_db next_db_handle]. rewrite Hnext, to_int_add_l.
      f_equal. lia.
    + lia.
    + rewrite Ht, Hc. split; [reflexivity | f_equal; lia].
Qed.

Lemma open_after_rounds (n : nat) :
  Z.of_nat n = 4294967295 ->
  let s := snd (run ((OpOpen, [Mock.path]) :: Mock.rounds 2 n) Mock.start) in
  db_table s = {[1 := Mock.conn]}
  /\ fst (sqlite_open [Mock.path] s) = VInt 1
  /\ db_table (snd (sqlite_open [Mock.path] s)) = db_table s.
Proof.
  intros Hn. cbv zeta. rewrite run_cons. cbn [snd bridge].
  rewrite mock_open. cbn [snd]. unfold Mock.rounds.
  destruct (rounds_keep_first n 0
    (set_db (<[next_db_handle Mock.start:=Mock.conn]> (db_table Mock.start))
       (to_int (next_db_handle Mock.start + 1))
       (native (CallOpen (Some "test.db"%string)) (world Mock.start) Mock.start)))
    as [Ht Hc]; [reflexivity | reflexivity | lia |].
  rewrite !mock_open. cbn [fst snd set_db db_table]. rewrite Ht, Hc.
  replace (2 + Z.of_nat 0 + Z.of_nat n) with (1 + 1 * 4294967296) by lia.
  rewrite to_int_period. change (to_int 1) with 1.
  repeat split.
Qed.

(** Claim C9 as stated fails: with handle 1 still open, 2^32 - 1 rounds of open
    and close bring the counter back to 1; the next open succeeds, returns
    handle 1 again and stores its connection over the live entry: the table
    gains no entry. *)
Lemma open_after_wrap_adds_no_entry :
  let s := snd (run ((OpOpen, [Mock.path])
                       :: Mock.rounds 2 (Z.to_nat 4294967295)) Mock.start) in
  db_table s = {[1 := Mock.conn]}
  /\ fst (sqlite_open [Mock.path] s) = VInt 1
  /\ db_table (snd (sqlite_open [Mock.path] s)) = db_table s.
Proof.
  apply open_after_rounds. apply Z2Nat.id. discriminate.
Qed.

(** Claim C7 as stated fails: the statement behind handle 1 has 3 columns
    and the index 4294967296 is not below 3, yet the call reads column 0 and
    returns its value. *)
Lemma column_index_beyond_int_is_read :
  stmt_table Mock.on_row !! 1 = Some Mock.cursor
  /\ eng_column_count Mock.engine Mock.cursor (world Mock.on_row) <= 4294967296
  /\ fst (sqlite_column [VInt 1; VInt 4294967296] Mock.on_row) = VInt 7
  /\ native_calls (snd (sqlite_column [VInt 1; VInt 4294967296] Mock.on_row))
     = native_calls Mock.on_row
       ++ [CallColumnCount Mock.cursor; CallColumnType Mock.cursor 0;
           CallColumnInt Mock.cursor 0].
Proof. repeat split. discriminate. Qed.

(** The large argument 2^32 + 1 steps the statement behind handle 1. *)
Example step_through_alias :
  fst (sqlite_step [VInt 4294967297] Mock.on_row) = VBool true
  /\ native_calls (snd (sqlite_step [VInt 4294967297] Mock.on_row))
     = native_calls Mock.on_row ++ [CallStep Mock.cursor].
Proof. repeat split. Qed.

(** ** The theorems at concrete inputs *)

Lemma bad_arguments_witness :
  map type [VInt 1; VString None] <> signature OpColumn
  /\ fst (bridge OpColumn [VInt 1; VString None] Mock.on_row) = VNull
  /\ no_native_call Mock.on_row
       (snd (bridge OpColumn [VInt 1; VString None] Mock.on_row))
  /\ same_registry Mock.on_row
       (snd (bridge OpColumn [VInt 1; VString None] Mock.on_row)).
Proof.
  split; [discriminate|].
  apply (bad_arguments_fail_without_effect OpColumn [VInt 1; VString None]
           Mock.on_row).
  discriminate.
Defined.

(** The statement behind handle 1 is on a row whose column 0 is of integer
    type and holds 4294967303; the host is handed the integer 7. *)
Lemma integer_column_witness :
  stmt_table Mock.on_row !! to_int 1 = Some Mock.cursor
  /\ Mock.cursor <> nullptr
  /\ 0 <= to_int 0 < eng_column_count Mock.engine Mock.cursor (world Mock.on_row)
  /\ eng_column_type Mock.engine Mock.cursor (to_int 0) (world Mock.on_row)
     = SQLITE_INTEGER
  /\ eng_column_int64 Mock.engine Mock.cursor (to_int 0) (world Mock.on_row)
     = 4294967303
  /\ ~ is_int 4294967303
  /\ fst (sqlite_column [VInt 1; VInt 0] Mock.on_row) = VInt 7
  /\ fst (sqlite_column [VInt 1; VInt 0] Mock.on_row) <> VInt 4294967303.
Proof.
  assert (Hsome : stmt_table Mock.on_row !! to_int 1 = Some Mock.cursor)
    by reflexivity.
  assert (Hnn : Mock.cursor <> nullptr) by discriminate.
  assert (Hin : 0 <= to_int 0
                < eng_column_count Mock.engine Mock.cursor (world Mock.on_row))
    by (split; [discriminate | reflexivity]).
  assert (Hty : eng_column_type Mock.engine Mock.cursor (to_int 0)
                  (world Mock.on_row) = SQLITE_INTEGER) by reflexivity.
  assert (Hbig : ~ is_int 4294967303)
    by (intros [_ Hle]; apply Hle; reflexivity).
  destruct (integer_column_is_truncated 1 0 Mock.cursor Mock.on_row
              Hsome Hnn Hin Hty) as (Hres & _ & Hloss).
  split; [exact Hsome|]. split; [exact Hnn|]. split; [exact Hin|].
  split; [exact Hty|]. split; [reflexivity|]. split; [exact Hbig|].
  split; [exact Hres | exact (Hloss Hbig)].
Defined.

Lemma mock_open_contract : open_gives_connection Mock.engine.
Proof.
  intros filename w rc db w' Hopen Hrc. simpl in Hopen.
  destruct filename; injection Hopen as <- <- <-; discriminate.
Defined.

Lemma open_close_close_witness :
  open_gives_connection Mock.engine
  /\ is_int (next_db_handle Mock.start)
  /\ sqlite_open [Mock.path] Mock.start
     = (VInt 1, snd (sqlite_open [Mock.path] Mock.start))
  /\ exists db,
      db_table (snd (sqlite_open [Mock.path] Mock.start)) !! 1 = Some db
      /\ fst (sqlite_close [VInt 1] (snd (sqlite_open [Mock.path] Mock.start)))
         = VBool true
      /\ native_calls
           (snd (sqlite_close [VInt 1] (snd (sqlite_open [Mock.path] Mock.start))))
         = native_calls (snd (sqlite_open [Mock.path] Mock.start)) ++ [CallClose db]
      /\ sqlite_close [VInt 1]
           (snd (sqlite_close [VInt 1] (snd (sqlite_open [Mock.path] Mock.start))))
         = (VBool false,
            snd (sqlite_close [VInt 1] (snd (sqlite_open [Mock.path] Mock.start)))).
Proof.
  assert (Hint : is_int (next_db_handle Mock.start))
    by (split; discriminate).
  split; [exact mock_open_contract|]. split; [exact Hint|].
  split; [reflexivity|].
  exact (open_close_close [Mock.path] Mock.start 1 _ mock_open_contract Hint
           eq_refl).
Defined.

Lemma handles_monotone_witness :
  let all := issued Connection (Mock.round 1 0 ++ [(OpOpen, [Mock.path])])
               Mock.start in
  Z.of_nat (length all) <= INT_MAX
  /\ (1 ∈ issued Connection (Mock.round 1 0) Mock.start)
  /\ (1 ∉ live Connection (snd (run (Mock.round 1 0) Mock.start)))
  /\ counter Connection Mock.start = 1
  /\ all = seqZ 1 (Z.of_nat (length all))
  /\ StronglySorted Z.lt all
  /\ (1 ∉ live Connection
          (snd (run (Mock.round 1 0 ++ [(OpOpen, [Mock.path])]) Mock.start))).
Proof.
  cbv zeta.
  destruct (handles_monotone_until_wrap (E := Mock.engine) 0 Connection
              (Mock.round 1 0) [(OpOpen, [Mock.path])])
    as (Hstart & Hsorted & Hfresh).
  assert (Hn : Z.of_nat (length (issued Connection
                 (Mock.round 1 0 ++ [(OpOpen, [Mock.path])]) Mock.start))
               <= INT_MAX) by (vm_compute; discriminate).
  assert (Hi : 1 ∈ issued Connection (Mock.round 1 0) Mock.start)
    by (apply elem_of_cons; left; reflexivity).
  assert (Hdead : 1 ∉ live Connection (snd (run (Mock.round 1 0) Mock.start)))
    by (apply (not_elem_of_dom (D := gset Z)); reflexivity).
  split; [exact Hn|]. split; [exact Hi|]. split; [exact Hdead|].
  split; [exact Hstart|]. destruct (Hsorted Hn) as [Heq Hs].
  split; [exact Heq|]. split; [exact Hs|].
  apply Hfresh; [vm_compute; discriminate | exact Hi | exact Hdead].
Defined.

Lemma step_result_witness :
  map type [] <> signature OpStep
  /\ stmt_table Mock.prepared !! to_int 5 = None
  /\ stmt_table Mock.prepared !! to_int 1 = Some Mock.cursor
  /\ Mock.cursor <> nullptr
  /\ fst (eng_step Mock.engine Mock.cursor (world Mock.prepared)) = SQLITE_ROW
  /\ sqlite_step [] Mock.prepared = (VNull, Mock.prepared)
  /\ sqlite_step [VInt 5] Mock.prepared = (VNull, Mock.prepared)
  /\ fst (sqlite_step [VInt 1] Mock.prepared) = VBool true
  /\ native_calls (snd (sqlite_step [VInt 1] Mock.prepared))
     = native_calls Mock.prepared ++ [CallStep Mock.cursor].
Proof.
  assert (Hshape : map type [] <> signature OpStep) by discriminate.
  assert (Hnone : stmt_table Mock.prepared !! to_int 5 = None) by reflexivity.
  assert (Hsome : stmt_table Mock.prepared !! to_int 1 = Some Mock.cursor)
    by reflexivity.
  assert (Hnn : Mock.cursor <> nullptr) by discriminate.
  assert (Hrow : fst (eng_step Mock.engine Mock.cursor (world Mock.prepared))
                 = SQLITE_ROW) by reflexivity.
  repeat (split; [assumption|]).
  split; [exact (proj1 (step_result [] Mock.prepared) Hshape)|].
  split; [exact (proj1 (proj2 (step_result [VInt 5] Mock.prepared))
                   5 eq_refl Hnone)|].
  destruct (proj2 (proj2 (step_result [VInt 1] Mock.prepared))
              1 Mock.cursor eq_refl Hsome Hnn) as (Hcalls & _ & Htrue & _).
  split; [exact (Htrue Hrow) | exact Hcalls].
Defined.

Lemma column_out_of_range_witness :
  stmt_table Mock.on_row !! to_int 1 = Some Mock.cursor
  /\ Mock.cursor <> nullptr
  /\ eng_column_count Mock.engine Mock.cursor (world Mock.on_row) <= to_int 3
  /\ fst (run (repeat (OpColumn, [VInt 1; VInt 3]) 2) Mock.on_row)
     = [VNull; VNull]
  /\ same_registry Mock.on_row
       (snd (run (repeat (OpColumn, [VInt 1; VInt 3]) 2) Mock.on_row))
  /\ world (snd (run (repeat (OpColumn, [VInt 1; VInt 3]) 2) Mock.on_row))
     = world Mock.on_row
  /\ native_calls (snd (run (repeat (OpColumn, [VInt 1; VInt 3]) 2) Mock.on_row))
     = native_calls Mock.on_row
       ++ [CallColumnCount Mock.cursor; CallColumnCount Mock.cursor]
  /\ Forall (fun c => reads_column c = false)
       [CallColumnCount Mock.cursor; CallColumnCount Mock.cursor].
Proof.
  assert (Hsome : stmt_table Mock.on_row !! to_int 1 = Some Mock.cursor)
    by reflexivity.
  assert (Hnn : Mock.cursor <> nullptr) by discriminate.
  assert (Hout : eng_column_count Mock.engine Mock.cursor (world Mock.on_row)
                 <= to_int 3) by (vm_compute; discriminate).
  repeat (split; [assumption|]).
  exact (column_out_of_range 1 3 Mock.cursor Mock.on_row 2 Hsome Hnn
           (or_intror Hout)).
Defined.

Lemma free_string_witness :
  is_int 1
  /\ string_table Mock.with_string !! 1 = Some "x"%string
  /\ string_table Mock.with_string !! to_int 7 = None
  /\ fst (sqlite_free_string [VInt 1] Mock.with_string) = VNull
  /\ string_table (snd (sqlite_free_string [VInt 1] Mock.with_string))
     = delete 1 (string_table Mock.with_string)
  /\ snd (sqlite_free_string [VInt 7] Mock.with_string) = Mock.with_string
  /\ snd (sqlite_free_string [VBool true] Mock.with_string) = Mock.with_string.
Proof.
  assert (Hint : is_int 1) by (split; discriminate).
  assert (Hnone : string_table Mock.with_string !! to_int 7 = None)
    by reflexivity.
  split; [exact Hint|]. split; [reflexivity|]. split; [exact Hnone|].
  destruct (free_string_returns_null [VInt 1] Mock.with_string)
    as (Hnull & _ & _ & _ & _ & _ & _ & _ & Hdel & _).
  split; [exact Hnull|]. split; [exact (Hdel 1 eq_refl Hint)|].
  split.
  - destruct (free_string_returns_null [VInt 7] Mock.with_string)
      as (_ & _ & _ & _ & _ & _ & _ & _ & _ & Hnop & _).
    exact (Hnop 7 eq_refl Hnone).
  - destruct (free_string_returns_null [VBool true] Mock.with_string)
      as (_ & _ & _ & _ & _ & _ & _ & _ & _ & _ & Hbad).
    apply Hbad. discriminate.
Defined.

Lemma registry_effects_witness :
  let s := snd (run (Mock.round 1 0) Mock.start) in
  Z.of_nat (length (issued Connection (Mock.round 1 0) Mock.start)) < 4294967296
  /\ fst (bridge OpOpen [Mock.path] s) = VInt 2
  /\ table_kept Statement s (snd (bridge OpOpen [Mock.path] s))
  /\ table_kept StringEntry s (snd (bridge OpOpen [Mock.path] s))
  /\ exists db,
      adds_entry (db_table s) (db_table (snd (bridge OpOpen [Mock.path] s))) 2 db.
Proof.
  cbv zeta.
  assert (Hn : Z.of_nat (length (issued Connection (Mock.round 1 0) Mock.start))
               < 4294967296) by reflexivity.
  destruct (registry_effects (E := Mock.engine) 0 (Mock.round 1 0) OpOpen
              [Mock.path]) as (Hframe & Hcreate & _).
  split; [exact Hn|]. split; [reflexivity|].
  split; [apply Hframe; discriminate|]. split; [apply Hframe; discriminate|].
  assert (Hbound : forall sp, own_space OpOpen = Some sp ->
            Z.of_nat (length (issued sp (Mock.round 1 0) (init Mock.engine 0)))
            < 4294967296)
    by (intros sp [= <-]; exact Hn).
  destruct (Hcreate Hbound) as (Hopen & _).
  exact (Hopen 2 eq_refl eq_refl).
Defined.

(** ** The further properties at concrete inputs *)

Lemma open_failure_witness :
  eng_open Mock.engine None (world Mock.start) = (14, nullptr, 0)
  /\ 14 <> SQLITE_OK
  /\ fst (sqlite_open [VString None] Mock.start) = VNull
  /\ same_registry Mock.start (snd (sqlite_open [VString None] Mock.start))
  /\ native_calls (snd (sqlite_open [VString None] Mock.start))
     = native_calls Mock.start ++ [CallOpen None; CallClose nullptr].
Proof.
  assert (Hopen : eng_open Mock.engine None (world Mock.start) = (14, nullptr, 0))
    by reflexivity.
  assert (Hrc : 14 <> SQLITE_OK) by discriminate.
  split; [exact Hopen|]. split; [exact Hrc|].
  destruct (open_failure_closes_and_keeps_registry None Mock.start 14 nullptr 0
              Hopen Hrc) as (Hnull & Hreg & Hcalls & _).
  split; [exact Hnull|]. split; [exact Hreg | exact Hcalls].
Defined.

Lemma open_success_witness :
  eng_open Mock.engine (Some "test.db"%string) (world Mock.start)
  = (SQLITE_OK, Mock.conn, 0)
  /\ is_int (next_db_handle Mock.start)
  /\ fst (sqlite_open [Mock.path] Mock.start) = VInt 1
  /\ get_db (to_int 1) Scene.opened = Mock.conn
  /\ next_db_handle Scene.opened = to_int (1 + 1)
  /\ native_calls Scene.opened = [CallOpen (Some "test.db"%string)].
Proof.
  assert (Hopen : eng_open Mock.engine (Some "test.db"%string) (world Mock.start)
                  = (SQLITE_OK, Mock.conn, 0)) by reflexivity.
  assert (Hint : is_int (next_db_handle Mock.start)) by (split; discriminate).
  split; [exact Hopen|]. split; [exact Hint|].
  destruct (open_success_resolves (Some "test.db"%string) Mock.start Mock.conn 0
              Hopen Hint) as (Hres & Hget & _ & Hnext & Hcalls & _).
  split; [exact Hres|]. split; [exact Hget|]. split; [exact Hnext | exact Hcalls].
Defined.

Lemma exec_witness :
  get_db (to_int 1) Scene.opened = Mock.conn
  /\ Mock.conn <> nullptr
  /\ eng_exec Mock.engine Mock.conn None (world Scene.opened)
     = (21, Some "bad parameter"%string, 0)
  /\ fst (sqlite_exec [VInt 1; VString None] Scene.opened) = VBool false
  /\ same_registry Scene.opened
       (snd (sqlite_exec [VInt 1; VString None] Scene.opened))
  /\ native_calls (snd (sqlite_exec [VInt 1; VString None] Scene.opened))
     = native_calls Scene.opened
       ++ [CallExec Mock.conn None; CallFree (Some "bad parameter"%string)].
Proof.
  assert (Hdb : get_db (to_int 1) Scene.opened = Mock.conn) by reflexivity.
  assert (Hnn : Mock.conn <> nullptr) by discriminate.
  assert (Hexec : eng_exec Mock.engine Mock.conn None (world Scene.opened)
                  = (21, Some "bad parameter"%string, 0)) by reflexivity.
  split; [exact Hdb|]. split; [exact Hnn|]. split; [exact Hexec|].
  destruct (exec_on_live_connection 1 None Scene.opened Mock.conn 21
              (Some "bad parameter"%string) 0 Hdb Hnn Hexec)
    as (Hreg & Hres & _ & _ & Hfree).
  split; [exact Hres|]. split; [exact Hreg|].
  apply Hfree; discriminate.
Defined.

Lemma unknown_handle_witness :
  resolves_in OpColumn = Some Statement
  /\ (to_int 9 ∉ live Statement Mock.on_row)
  /\ bridge OpColumn [VInt 9; VInt 0] Mock.on_row = (VNull, Mock.on_row).
Proof.
  assert (Hdead : to_int 9 ∉ live Statement Mock.on_row)
    by (apply (not_elem_of_dom (D := gset Z)); reflexivity).
  split; [reflexivity|]. split; [exact Hdead|].
  exact (unknown_handle_fails OpColumn Statement 9 [VInt 0] Mock.on_row
           eq_refl Hdead).
Defined.

Lemma prepare_witness :
  let sql := Some "SELECT a,b,c FROM t"%string in
  get_db (to_int 1) Scene.opened = Mock.conn
  /\ Mock.conn <> nullptr
  /\ eng_prepare_v2 Mock.engine Mock.conn sql (world Scene.opened)
     = (SQLITE_OK, Mock.cursor, 0)
  /\ is_int (next_stmt_handle Scene.opened)
  /\ fst (sqlite_prepare [VInt 1; VString sql] Scene.opened) = VInt 1
  /\ get_stmt (to_int 1) (snd (sqlite_prepare [VInt 1; VString sql] Scene.opened))
     = Mock.cursor
  /\ native_calls
       (snd (sqlite_step [VInt 1]
               (snd (sqlite_prepare [VInt 1; VString sql] Scene.opened))))
     = native_calls Scene.opened
       ++ [CallPrepare Mock.conn sql; CallStep Mock.cursor].
Proof.
  cbv zeta.
  assert (Hdb : get_db (to_int 1) Scene.opened = Mock.conn) by reflexivity.
  assert (Hnn : Mock.conn <> nullptr) by discriminate.
  assert (Hprep : eng_prepare_v2 Mock.engine Mock.conn
                    (Some "SELECT a,b,c FROM t"%string) (world Scene.opened)
                  = (SQLITE_OK, Mock.cursor, 0)) by reflexivity.
  assert (Hint : is_int (next_stmt_handle Scene.opened)) by (split; discriminate).
  split; [exact Hdb|]. split; [exact Hnn|]. split; [exact Hprep|].
  split; [exact Hint|].
  destruct (prepare_outcomes 1 (Some "SELECT a,b,c FROM t"%string) Scene.opened
              Mock.conn SQLITE_OK Mock.cursor 0 Hdb Hnn Hprep Hint)
    as (_ & _ & _ & _ & _ & Hok).
  destruct (Hok eq_refl) as (Hres & _ & _ & Hget & _ & Hstep).
  split; [exact Hres|]. split; [exact Hget|]. apply Hstep. discriminate.
Defined.

Lemma use_after_close_witness :
  fst (sqlite_close [VInt 1] Scene.opened) = VBool true
  /\ exists v db,
      [VInt 1] = [VInt v]
      /\ db_table Scene.opened !! to_int v = Some db /\ db <> nullptr
      /\ get_db (to_int v) (snd (sqlite_close [VInt 1] Scene.opened)) = nullptr
      /\ sqlite_exec [VInt v; VString None] (snd (sqlite_close [VInt 1] Scene.opened))
         = (VBool false, snd (sqlite_close [VInt 1] Scene.opened)).
Proof.
  assert (Htrue : fst (sqlite_close [VInt 1] Scene.opened) = VBool true)
    by reflexivity.
  split; [exact Htrue|].
  destruct (use_after_close [VInt 1] Scene.opened Htrue)
    as (v & db & Hargv & Hsome & Hnn & _ & Hget & _ & Hexec & _).
  exists v, db. split; [exact Hargv|]. split; [exact Hsome|].
  split; [exact Hnn|]. split; [exact Hget | apply Hexec].
Defined.

Lemma use_after_finalize_witness :
  fst (sqlite_finalize [VInt 1] Mock.on_row) = VBool true
  /\ exists v stmt,
      [VInt 1] = [VInt v]
      /\ stmt_table Mock.on_row !! to_int v = Some stmt /\ stmt <> nullptr
      /\ sqlite_column [VInt v; VInt 0] (snd (sqlite_finalize [VInt 1] Mock.on_row))
         = (VNull, snd (sqlite_finalize [VInt 1] Mock.on_row))
      /\ sqlite_finalize [VInt v] (snd (sqlite_finalize [VInt 1] Mock.on_row))
         = (VBool false, snd (sqlite_finalize [VInt 1] Mock.on_row)).
Proof.
  assert (Htrue : fst (sqlite_finalize [VInt 1] Mock.on_row) = VBool true)
    by reflexivity.
  split; [exact Htrue|].
  destruct (use_after_finalize [VInt 1] Mock.on_row Htrue)
    as (v & stmt & Hargv & Hsome & Hnn & _ & _ & _ & _ & Hcol & Hfin).
  exists v, stmt. split; [exact Hargv|]. split; [exact Hsome|].
  split; [exact Hnn|]. split; [apply Hcol | apply Hfin].
Defined.

Lemma null_statement_witness :
  fst (sqlite_prepare [VInt 1; VString Scene.no_sql] Scene.opened) = VInt 1
  /\ stmt_table Scene.hollow !! to_int 1 = Some nullptr
  /\ sqlite_step [VInt 1] Scene.hollow = (VNull, Scene.hollow)
  /\ fst (sqlite_finalize [VInt 1] Scene.hollow) = VBool false
  /\ stmt_table (snd (sqlite_finalize [VInt 1] Scene.hollow)) !! to_int 1 = None
  /\ no_native_call Scene.hollow (snd (sqlite_finalize [VInt 1] Scene.hollow)).
Proof.
  assert (Hnull : stmt_table Scene.hollow !! to_int 1 = Some nullptr)
    by reflexivity.
  split; [reflexivity|]. split; [exact Hnull|].
  destruct (null_statement_entry 1 Scene.hollow Hnull)
    as (Hstep & _ & Hfalse & _ & Hgone & Hquiet & _).
  split; [apply Hstep|]. split; [exact Hfalse|].
  split; [exact Hgone | exact Hquiet].
Defined.

Lemma column_text_witness :
  stmt_table Mock.on_row !! to_int 1 = Some Mock.cursor
  /\ Mock.cursor <> nullptr
  /\ 0 <= to_int 2 < eng_column_count Mock.engine Mock.cursor (world Mock.on_row)
  /\ eng_column_type Mock.engine Mock.cursor (to_int 2) (world Mock.on_row)
     = SQLITE_TEXT
  /\ is_int (next_string_handle Mock.on_row)
  /\ get_string 1 Mock.on_row = None
  /\ fst (sqlite_column [VInt 1; VInt 2] Mock.on_row) = VString (Some "x"%string)
  /\ string_table Mock.with_string
     = <[1 := "x"%string]> (string_table Mock.on_row)
  /\ string_table (snd (sqlite_free_string [VInt 1] Mock.with_string))
     = string_table Mock.on_row.
Proof.
  assert (Hsome : stmt_table Mock.on_row !! to_int 1 = Some Mock.cursor)
    by reflexivity.
  assert (Hnn : Mock.cursor <> nullptr) by discriminate.
  assert (Hin : 0 <= to_int 2
                < eng_column_count Mock.engine Mock.cursor (world Mock.on_row))
    by (split; [discriminate | reflexivity]).
  assert (Hty : eng_column_type Mock.engine Mock.cursor (to_int 2)
                  (world Mock.on_row) = SQLITE_TEXT) by reflexivity.
  assert (Hint : is_int (next_string_handle Mock.on_row))
    by (split; discriminate).
  assert (Hfree : get_string 1 Mock.on_row = None) by reflexivity.
  split; [exact Hsome|]. split; [exact Hnn|]. split; [exact Hin|].
  split; [exact Hty|]. split; [exact Hint|]. split; [exact Hfree|].
  destruct (column_text_then_free 1 2 Mock.cursor Mock.on_row
              Hsome Hnn Hin Hty Hint)
    as (Hres & Htab & _ & _ & _ & _ & _ & Hback).
  split; [exact Hres|]. split; [exact Htab | exact (Hback Hfree)].
Defined.

Lemma column_float_witness :
  stmt_table Mock.on_row !! to_int 1 = Some Mock.cursor
  /\ Mock.cursor <> nullptr
  /\ 0 <= to_int 1 < eng_column_count Mock.engine Mock.cursor (world Mock.on_row)
  /\ eng_column_type Mock.engine Mock.cursor (to_int 1) (world Mock.on_row)
     = SQLITE_FLOAT
  /\ fst (sqlite_column [VInt 1; VInt 1] Mock.on_row) = VFloat 4612811918334230528
  /\ same_registry Mock.on_row (snd (sqlite_column [VInt 1; VInt 1] Mock.on_row)).
Proof.
  assert (Hsome : stmt_table Mock.on_row !! to_int 1 = Some Mock.cursor)
    by reflexivity.
  assert (Hnn : Mock.cursor <> nullptr) by discriminate.
  assert (Hin : 0 <= to_int 1
                < eng_column_count Mock.engine Mock.cursor (world Mock.on_row))
    by (split; [discriminate | reflexivity]).
  assert (Hty : eng_column_type Mock.engine Mock.cursor (to_int 1)
                  (world Mock.on_row) = SQLITE_FLOAT) by reflexivity.
  split; [exact Hsome|]. split; [exact Hnn|]. split; [exact Hin|].
  split; [exact Hty|].
  destruct (column_float_and_null 1 1 Mock.cursor Mock.on_row Hsome Hnn Hin)
    as (Hreg & _ & Hfloat & _); [discriminate | discriminate |].
  split; [exact (proj1 (Hfloat Hty)) | exact Hreg].
Defined.


(** Handle 1 is a live connection and a live statement; the argument
    2^32 + 1 reaches both, and the string stored under 1. *)
Lemma handle_truncation_witness :
  is_int 1
  /\ db_table Mock.on_row !! to_int 1 = Some Mock.conn
  /\ stmt_table Mock.on_row !! to_int 1 = Some Mock.cursor
  /\ string_table Mock.with_string !! to_int 1 = Some "x"%string
  /\ to_int 1 = 1
  /\ fst (sqlite_close [VInt 4294967297] Mock.on_row) = VBool true
  /\ native_calls (snd (sqlite_close [VInt 4294967297] Mock.on_row))
     = native_calls Mock.on_row ++ [CallClose Mock.conn]
  /\ native_calls (snd (sqlite_step [VInt 4294967297] Mock.on_row))
     = native_calls Mock.on_row ++ [CallStep Mock.cursor]
  /\ fst (sqlite_finalize [VInt 4294967297] Mock.on_row) = VBool true
  /\ stmt_table (snd (sqlite_finalize [VInt 4294967297] Mock.on_row))
     = delete (to_int 1) (stmt_table Mock.on_row)
  /\ string_table (snd (sqlite_free_string [VInt 4294967297] Mock.with_string))
       !! to_int 1 = None.
Proof.
  assert (Hint : is_int 1) by (split; discriminate).
  assert (Hdb : db_table Mock.on_row !! to_int 1 = Some Mock.conn)
    by reflexivity.
  assert (Hst : stmt_table Mock.on_row !! to_int 1 = Some Mock.cursor)
    by reflexivity.
  assert (Hstr : string_table Mock.with_string !! to_int 1 = Some "x"%string)
    by reflexivity.
  assert (Hconn : Mock.conn <> nullptr) by discriminate.
  assert (Hcur : Mock.cursor <> nullptr) by discriminate.
  destruct (handle_argument_is_truncated OpStep 1 [] Mock.on_row)
    as ((_ & _ & Hid) & _ & _ & _ & Hconns & Hstmts & _).
  destruct (handle_argument_is_truncated OpFreeString 1 [] Mock.with_string)
    as (_ & _ & _ & _ & _ & _ & Hstrs).
  destruct (Hconns Mock.conn Hdb Hconn) as (_ & Hclose & Hcalls & _).
  destruct (Hstmts Mock.cursor Hst Hcur) as (_ & Hstep & _ & Hfin & _ & Hgone).
  destruct (Hstrs "x"%string Hstr) as (_ & _ & Hfreed).
  split; [exact Hint|]. split; [exact Hdb|]. split; [exact Hst|].
  split; [exact Hstr|]. split; [exact (Hid Hint)|].
  split; [exact Hclose|]. split; [exact Hcalls|]. split; [exact Hstep|].
  split; [exact Hfin|]. split; [exact Hgone | exact Hfreed].
Defined.
